(** * mobie.tables.default_table: the default-table pipeline

    A shallow embedding of [src/mobie/tables/default_table.py] and the
    properties of its attribute extraction and coordinate normalisation.

    Conventions of the embedding.
    - A float64 is an exact rational or NaN ([num]); rounding and
      infinities are not represented.
    - A numpy array is a buffer in a store (a list of buffers, addressed by
      position); basic slicing gives a
      [view] that shares the buffer, so in-place updates through a view are
      visible through every other view of the same buffer.
    - Python code runs in the monad [M]: it threads the store and the log of
      calls made to the outside world, and may raise an exception [exn].
    - Everything the module imports but does not define (file access, vigra,
      skimage, luigi, the operating system) answers through an environment
      [Env]; the theorems hold for every environment.
    - [check_and_copy_default_table], which copies an existing table, is
      not part of the pipeline; it runs in the monad [MW], which threads
      the warnings issued beside the store and the log, and its two
      helpers of [mobie.tables.utils] answer through [TableTools]. *)

From Stdlib Require Import QArith Qcanon Ascii String.
From stdpp Require Import base decidable option list sets strings numbers pretty
  gmap.

Local Open Scope string_scope.
Local Open Scope list_scope.

(** ** Floating point values *)

Inductive num : Type :=
| NaN
| Fin (q : Qc).

#[global] Instance num_eq_dec : EqDecision num.
Proof. solve_decision. Defined.

#[global] Instance num_inhabited : Inhabited num := populate NaN.

Definition num_of_Z (z : Z) : num := Fin (Q2Qc (inject_Z z)).
Definition num_of_nat (n : nat) : num := num_of_Z (Z.of_nat n).
Definition num_zero : num := num_of_Z 0.

(** [a * b] on floats: NaN is absorbing. *)
Definition num_mul (a b : num) : num :=
  match a, b with
  | Fin x, Fin y => Fin (x * y)
  | _, _ => NaN
  end.

(** [a / b]; a zero divisor leaves the representable range. *)
Definition num_div (a b : num) : num :=
  match a, b with
  | Fin x, Fin y => if decide (y = 0%Qc) then NaN else Fin (x / y)
  | _, _ => NaN
  end.

(** [a != b] as numpy and pandas evaluate it: NaN differs from everything. *)
Definition num_ne (a b : num) : bool :=
  match a, b with
  | Fin x, Fin y => negb (bool_decide (x = y))
  | _, _ => true
  end.

Definition Qc_abs (q : Qc) : Qc := if decide (0 ≤ q)%Qc then q else (- q)%Qc.

(** The default tolerances of [numpy.isclose]. *)
Definition rtol : Qc := Q2Qc (1 # 100000).
Definition atol : Qc := Q2Qc (1 # 100000000).

(** [numpy.isclose(a, b)] with [equal_nan=False]:
    [|a - b| <= atol + rtol * |b|]. *)
Definition np_isclose (a b : num) : bool :=
  match a, b with
  | Fin x, Fin y => bool_decide (Qc_abs (x - y) ≤ atol + rtol * Qc_abs y)%Qc
  | _, _ => false
  end.

Definition positive_num (a : num) : Prop :=
  match a with
  | Fin x => (0 < x)%Qc
  | NaN => False
  end.

(** ** Exceptions *)

Inductive exn : Type :=
| AssertionError
| IndexError
| ValueError
| AttributeError
| RuntimeError (msg : string)
| NotImplementedError (msg : string)
| OSError (msg : string).

(** ** numpy arrays: buffers, views and the store *)

(** A two-dimensional float64 buffer. *)
Record ndarray : Type := mk_ndarray {
  ncols : nat;
  rows : list (list num)
}.

(** A view made by basic slicing along axis 1: all rows of buffer [base],
    the [width] columns from [start] on, read backwards when [reversed]. *)
Record view : Type := mk_view {
  base : nat;
  start : nat;
  width : nat;
  reversed : bool
}.

(** The buffer column behind each column of the view. *)
Definition view_cols (v : view) : list nat :=
  let cs := seq (start v) (width v) in
  if reversed v then reverse cs else cs.

(** [v[:, a:b]] for literal bounds [0 <= a <= b]; slicing clamps. *)
Definition slice_cols (a b : nat) (v : view) : view :=
  let b' := b `min` width v in
  let a' := a `min` b' in
  mk_view (base v)
          (if reversed v then start v + (width v - b') else start v + a')
          (b' - a') (reversed v).

(** [v[:, ::-1]] *)
Definition reverse_cols (v : view) : view :=
  mk_view (base v) (start v) (width v) (negb (reversed v)).

(** The entry of a row at column [c]. *)
Definition get (row : list num) (c : nat) : num := default NaN (row !! c).

Definition select (cs : list nat) (row : list num) : list num :=
  get row <$> cs.

(** The values seen through a view, as a fresh array. *)
Definition view_to_array (h : list ndarray) (v : view) : ndarray :=
  mk_ndarray (width v)
             (match h !! base v with
              | Some a => select (view_cols v) <$> rows a
              | None => []
              end).

Definition map_rows (g : list num → list num) (a : ndarray) : ndarray :=
  mk_ndarray (ncols a) (g <$> rows a).

(** ** The outside world *)

(** The [MorphologyWorkflow] task with the keyword arguments it is built
    with. *)
Record MorphologyWorkflow : Type := mk_task {
  task_tmp_folder : string;
  task_max_jobs : Z;
  task_target : string;
  task_config_dir : string;
  task_input_path : string;
  task_input_key : string;
  task_output_path : string;
  task_output_key : string;
  task_prefix : string;
  task_max_jobs_merge : Z
}.

(** A table: column names and rows, each row with its index label. *)
Record DataFrame : Type := mk_df {
  columns : list string;
  df_rows : list (nat * list num)
}.

#[global] Instance DataFrame_eq_dec : EqDecision DataFrame.
Proof. solve_decision. Defined.

(** Calls that act on the outside world, with their arguments. *)
Inductive event : Type :=
| EvWriteGlobalConfig (config_folder : string)
| EvLuigiBuild (t : MorphologyWorkflow)
| EvMakedirs (name : string) (exist_ok : bool)
| EvToCsv (table : DataFrame) (path sep : string) (index : bool)
          (na_rep : string).

Record World : Type := mk_world {
  store : list ndarray;
  log : list event
}.

(** ** The monad of Python code *)

Definition M (A : Type) : Type := World → (exn + A) * World.

#[global] Instance M_ret : MRet M := λ A a w, (inr a, w).

#[global] Instance M_bind : MBind M := λ A B f m w,
  match m w with
  | (inr a, w') => f a w'
  | (inl e, w') => (inl e, w')
  end.

Definition raise {A} (e : exn) : M A := λ w, (inl e, w).

(** An answer of the outside world, or a fallible pure step. *)
Definition lift {A} (r : exn + A) : M A := λ w, (r, w).

Definition assert_ (b : bool) : M unit :=
  if b then mret tt else raise AssertionError.

Definition emit (e : event) : M unit := λ w,
  (inr tt, mk_world (store w) (log w ++ [e])).

(** [for x in xs: body(x)] *)
Fixpoint for_ {A} (xs : list A) (body : A → M unit) : M unit :=
  match xs with
  | [] => mret tt
  | x :: xs' => body x;; for_ xs' body
  end.

(** [[f(x) for x in xs]] *)
Fixpoint mapM {A B} (f : A → M B) (xs : list A) : M (list B) :=
  match xs with
  | [] => mret []
  | x :: xs' => y ← f x; ys ← mapM f xs'; mret (y :: ys)
  end.

(** [l[i]] on a Python list, for a non-negative index. *)
Definition list_getitem {A} (l : list A) (i : nat) : exn + A :=
  match l !! i with
  | Some x => inr x
  | None => inl IndexError
  end.

(** A new buffer in the store, and the view of all of it. *)
Definition alloc (a : ndarray) : M view := λ w,
  (inr (mk_view (length (store w)) 0 (ncols a) false),
   mk_world (store w ++ [a]) (log w)).

Definition read (v : view) : M ndarray := λ w,
  (inr (view_to_array (store w) v), w).

(** The one-dimensional view [v[:, d]]: a column of a buffer. *)
Record colview : Type := mk_colview {
  cv_base : nat;
  cv_col : nat
}.

(** [v[:, d]] for a non-negative [d]. *)
Definition getitem_col (v : view) (d : nat) : exn + colview :=
  match view_cols v !! d with
  | Some c => inr (mk_colview (base v) c)
  | None => inl IndexError
  end.

(** [col *= r], in place: every row of the buffer is updated. *)
Definition imul (col : colview) (r : num) : M unit := λ w,
  (inr tt,
   mk_world (alter (map_rows (alter (λ x, num_mul x r) (cv_col col)))
                   (cv_base col) (store w))
            (log w)).

(** Keeps the elements whose mask bit is set. *)
Fixpoint mask_filter {A} (mask : list bool) (l : list A) : list A :=
  match mask, l with
  | b :: mask', x :: l' =>
      if b then x :: mask_filter mask' l' else mask_filter mask' l'
  | _, _ => []
  end.

(** [v[mask]] with a boolean mask over the rows: a copy. *)
Definition getitem_mask (v : view) (mask : list bool) : M ndarray := λ w,
  let a := view_to_array (store w) v in
  if (length mask =? length (rows a))%nat
  then (inr (mk_ndarray (ncols a) (mask_filter mask (rows a))), w)
  else (inl IndexError, w).

(** Writes [vs] into the columns [cs] of a row. *)
Definition set_cols (cs : list nat) (vs : list num) (row : list num)
  : list num :=
  foldr (λ cx r, <[cx.1 := cx.2]> r) row (zip cs vs).

(** numpy broadcasting of a row of width 1 to width [n]. *)
Definition broadcast_row (n : nat) (vs : list num) : list num :=
  match vs with
  | [x] => replicate n x
  | _ => vs
  end.

Fixpoint assign_masked (cs : list nat) (rs : list (list num))
    (mask : list bool) (vals : list (list num)) : list (list num) :=
  match rs, mask with
  | r :: rs', true :: mask' =>
      match vals with
      | v :: vals' =>
          set_cols cs (broadcast_row (length cs) v) r
          :: assign_masked cs rs' mask' vals'
      | [] => r :: rs'
      end
  | r :: rs', false :: mask' => r :: assign_masked cs rs' mask' vals
  | _, _ => rs
  end.

(** [v[mask] = vals], in place.  The mask must have one bit per row, and
    [vals] one row per selected row, of the view's width or of width 1. *)
Definition setitem_mask (v : view) (mask : list bool) (vals : ndarray)
  : M unit := λ w,
  let n := length (rows (view_to_array (store w) v)) in
  if negb (length mask =? n)%nat then (inl IndexError, w)
  else if negb ((length (rows vals) =? length (mask_filter mask mask))%nat
                && ((ncols vals =? width v)%nat || (ncols vals =? 1)%nat))
  then (inl ValueError, w)
  else
    (inr tt,
     mk_world (alter (λ a, mk_ndarray (ncols a)
                             (assign_masked (view_cols v) (rows a) mask
                                            (rows vals)))
                     (base v) (store w))
              (log w)).

(** [numpy.concatenate(arrs, axis=1)] *)
Definition np_concatenate (arrs : list ndarray) : exn + ndarray :=
  match arrs with
  | [] => inl ValueError
  | a :: rest =>
      if forallb (λ b, (length (rows b) =? length (rows a))%nat) rest
      then inr (foldl (λ acc b, mk_ndarray (ncols acc + ncols b)
                                  (zip_with app (rows acc) (rows b)))
                      a rest)
      else inl ValueError
  end.

(** What [numpy.array] makes of a list of rows: an empty one-dimensional
    array for no rows, a two-dimensional one for rows of one length. *)
Inductive nparray : Type :=
| Arr1 (xs : list num)
| Arr2 (a : ndarray).

Definition shape (t : nparray) : list nat :=
  match t with
  | Arr1 xs => [length xs]
  | Arr2 a => [length (rows a); ncols a]
  end.

Definition np_array (rws : list (list num)) : exn + nparray :=
  match rws with
  | [] => inr (Arr1 [])
  | r :: rest =>
      if forallb (λ r', (length r' =? length r)%nat) rest
      then inr (Arr2 (mk_ndarray (length r) rws))
      else inl ValueError
  end.

(** ** pandas *)

(** [pandas.DataFrame(data, columns=cols)]: the rows are labelled 0, 1, ... *)
Definition pd_DataFrame (data : nparray) (cols : list string)
  : exn + DataFrame :=
  match data with
  | Arr2 a =>
      if (ncols a =? length cols)%nat
      then inr (mk_df cols (imap (λ i r, (i, r)) (rows a)))
      else inl ValueError
  | Arr1 _ => inl ValueError
  end.

(** [table.name]: the column of that name. *)
Definition df_column (name : string) (df : DataFrame) : exn + list num :=
  match list_find (λ c, c = name) (columns df) with
  | Some (i, _) => inr ((λ r, get r.2 i) <$> df_rows df)
  | None => inl AttributeError
  end.

(** [table[mask]] with a boolean mask over the rows. *)
Definition df_getitem_mask (mask : list bool) (df : DataFrame) : DataFrame :=
  mk_df (columns df) (mask_filter mask (df_rows df)).

Definition tab_char : string := String "009"%char EmptyString.
Definition newline : string := String "010"%char EmptyString.

Definition csv_field (repr : Qc → string) (na_rep : string) (x : num)
  : string :=
  match x with
  | NaN => na_rep
  | Fin q => repr q
  end.

Definition csv_line (sep : string) (fields : list string) : string :=
  String.concat sep fields +:+ newline.

(** The text [DataFrame.to_csv] writes: the header line, then one line per
    row; with [index] every line starts with the row label. *)
Definition to_csv_text (repr : Qc → string) (df : DataFrame)
    (sep : string) (index : bool) (na_rep : string) : string :=
  String.concat EmptyString
    (csv_line sep ((if index then [EmptyString] else []) ++ columns df)
     :: ((λ ir, csv_line sep ((if index then [pretty ir.1] else [])
                              ++ (csv_field repr na_rep <$> ir.2)))
         <$> df_rows df)).

(** ** The environment *)

(** One entry of [skimage.measure.regionprops]. *)
Record RegionProperties : Type := mk_region {
  label : nat;
  bbox : list Z;
  area : Z
}.

Record Env : Type := mk_env {
  (** a label image loaded in memory *)
  label_image : Type;
  image_ndim : label_image → nat;
  (** [open_file(path, "r")[key].ndim] *)
  open_file_ndim : string → string → exn + nat;
  (** [open_file(path, "r")[key][:]] of a label image *)
  open_file_image : string → string → exn + label_image;
  (** [open_file(path, "r")[key][:]] of the attribute dataset *)
  open_file_array : string → string → exn + ndarray;
  (** [vigra.filters.eccentricityCenters]: a list indexed by label *)
  eccentricityCenters : label_image → exn + list (list num);
  regionprops : label_image → exn + list RegionProperties;
  (** [write_global_config(config_folder)] of [mobie/utils.py], which is
      not part of the sources at hand: a call with an outcome *)
  write_global_config : string → exn + unit;
  (** [luigi.build([t], local_scheduler=True)] *)
  luigi_build : MorphologyWorkflow → exn + bool;
  (** [os.makedirs(name, exist_ok=exist_ok)] *)
  os_makedirs : string → bool → exn + unit;
  (** writing a text to a path *)
  write_text : string → string → exn + unit;
  (** how a finite float is printed *)
  float_repr : Qc → string
}.

(** A call to the outside: logged, then answered. *)
Definition call {A} (e : event) (answer : exn + A) : M A :=
  emit e;; lift answer.

(** ** os.path *)

Definition is_sep (c : ascii) : bool := Ascii.eqb c "/".

Definition startswith_sep (s : string) : bool :=
  match s with
  | String c _ => is_sep c
  | EmptyString => false
  end.

Fixpoint endswith_sep (s : string) : bool :=
  match s with
  | EmptyString => false
  | String c EmptyString => is_sep c
  | String _ s' => endswith_sep s'
  end.

Definition is_empty (s : string) : bool :=
  match s with
  | EmptyString => true
  | String _ _ => false
  end.

(** [posixpath.join(a, b)] *)
Definition os_path_join (a b : string) : string :=
  if startswith_sep b then b
  else if is_empty a || endswith_sep a then a +:+ b
  else a +:+ "/" +:+ b.

(** [(p[:i], p[i:])] for [i = p.rfind("/") + 1]. *)
Fixpoint rsplit_sep (p : string) : string * string :=
  match p with
  | EmptyString => (EmptyString, EmptyString)
  | String c p' =>
      let ht := rsplit_sep p' in
      if negb (is_empty ht.1) then (String c ht.1, ht.2)
      else if is_sep c then (String c EmptyString, ht.2)
      else (EmptyString, String c ht.2)
  end.

(** [s.rstrip("/")] *)
Fixpoint rstrip_sep (s : string) : string :=
  match s with
  | EmptyString => EmptyString
  | String c s' =>
      let r := rstrip_sep s' in
      if is_empty r && is_sep c then EmptyString else String c r
  end.

(** [posixpath.split(p)]: the head loses its trailing separators unless it
    consists of separators only. *)
Definition os_path_split (p : string) : string * string :=
  let ht := rsplit_sep p in
  let stripped := rstrip_sep ht.1 in
  (if is_empty stripped then ht.1 else stripped, ht.2).

(** ** default_table.py *)

Section default_table.

Context (env : Env).

Definition col_names_2d : list string :=
  ["label_id"; "anchor_y"; "anchor_x";
   "bb_min_y"; "bb_min_x"; "bb_max_y"; "bb_max_x"; "n_pixels"].

Definition _compute_table_2d (seg_path seg_key : string)
    (resolution : list num) : M DataFrame :=
  let ndim := 2%nat in
  seg ← lift (open_file_image env seg_path seg_key);
  assert_ ((length resolution =? image_ndim env seg)%nat
           && (image_ndim env seg =? ndim)%nat);;
  centers ← lift (eccentricityCenters env seg);
  props ← lift (regionprops env seg);
  tab ← mapM (λ p,
      ce ← lift (list_getitem centers (label p));
      mret ([num_of_nat (label p)]
            ++ zip_with (λ ce res, num_mul ce res) ce resolution
            ++ zip_with (λ bb res, num_mul (num_of_Z bb) res)
                        (take ndim (bbox p)) resolution
            ++ zip_with (λ bb res, num_mul (num_of_Z bb) res)
                        (drop ndim (bbox p)) resolution
            ++ [num_of_Z (area p)])) props;
  tab ← lift (np_array tab);
  let col_names := col_names_2d in
  n ← lift (list_getitem (shape tab) 1);
  assert_ (n =? length col_names)%nat;;
  lift (pd_DataFrame tab col_names).

Definition _table_impl (input_path input_key tmp_folder target : string)
    (max_jobs : Z) : M (string * string) :=
  let out_path := os_path_join tmp_folder "data.n5" in
  let config_folder := os_path_join tmp_folder "configs" in
  let out_key := "attributes" in
  let t := {| task_tmp_folder := tmp_folder; task_max_jobs := max_jobs;
              task_target := target; task_config_dir := config_folder;
              task_input_path := input_path; task_input_key := input_key;
              task_output_path := out_path; task_output_key := out_key;
              task_prefix := "attributes";
              task_max_jobs_merge := Z.min 32 max_jobs |} in
  ret_ ← call (EvLuigiBuild t) (luigi_build env t);
  (if negb ret_ then raise (RuntimeError "Attribute workflow failed")
   else mret tt);;
  mret (out_path, out_key).

Definition col_names_3d : list string :=
  ["label_id";
   "anchor_x"; "anchor_y"; "anchor_z";
   "bb_min_x"; "bb_min_y"; "bb_min_z";
   "bb_max_x"; "bb_max_y"; "bb_max_z";
   "n_pixels"].

(** The closure of [_n5_to_pandas]; [res_in_micron] is the variable it
    captures. *)
Definition translate_coordinate_tuple (res_in_micron : list num)
    (coords : view) : M view :=
  let coords := reverse_cols coords in
  for_ (seq 0 3) (λ d,
    col ← lift (getitem_col coords d);
    r ← lift (list_getitem res_in_micron d);
    imul col r);;
  mret coords.

(** Modelled from the spec: [remove_background_label_row] of
    [mobie/tables/utils.py], which is not part of the sources at hand.  The
    spec: "Drop the row corresponding to the background label (label 0) if
    present". *)
Definition remove_background_label_row (table : DataFrame)
  : exn + DataFrame :=
  match df_column "label_id" table with
  | inr ids => inr (df_getitem_mask ((λ x, num_ne x num_zero) <$> ids) table)
  | inl e => inl e
  end.

Definition _n5_to_pandas (input_path input_key : string)
    (resolution : list num) (anchors : option view) : M DataFrame :=
  attributes ← lift (open_file_array env input_path input_key);
  attributes ← alloc attributes;
  let label_ids := slice_cols 0 1 attributes in
  let col_names := col_names_3d in
  let res_in_micron := reverse resolution in
  let com := slice_cols 2 5 attributes in
  anchors ←
    match anchors with
    | None => translate_coordinate_tuple res_in_micron com
    | Some anchors =>
        a ← read anchors;
        c ← read com;
        assert_ (length (rows a) =? length (rows c))%nat;;
        assert_ (width anchors =? 3)%nat;;
        a ← read anchors;
        let invalid_anchors :=
          forallb (λ x, np_isclose x num_zero) <$> rows a in
        vals ← getitem_mask com invalid_anchors;
        setitem_mask anchors invalid_anchors vals;;
        translate_coordinate_tuple res_in_micron anchors
    end;
  minc ← translate_coordinate_tuple res_in_micron (slice_cols 5 8 attributes);
  maxc ← translate_coordinate_tuple res_in_micron
           (slice_cols 8 11 attributes);
  parts ← mapM read [label_ids; anchors; minc; maxc;
                     slice_cols 1 2 attributes];
  data ← lift (np_concatenate parts);
  df ← lift (pd_DataFrame (Arr2 data) col_names);
  lift (remove_background_label_row df).

Definition _compute_table_3d (seg_path seg_key : string)
    (resolution : list num) (correct_anchors : bool)
    (tmp_folder target : string) (max_jobs : Z) : M DataFrame :=
  let config_folder := os_path_join tmp_folder "configs" in
  call (EvWriteGlobalConfig config_folder)
       (write_global_config env config_folder);;
  '(tmp_path, tmp_key) ←
    _table_impl seg_path seg_key tmp_folder target max_jobs;
  anchors ←
    (if correct_anchors
     then raise (NotImplementedError "Anchor correction is not implemented yet")
     else mret None);
  _n5_to_pandas tmp_path tmp_key resolution anchors.

Definition _remove_empty_columns (table : DataFrame) : exn + DataFrame :=
  match df_column "n_pixels" table with
  | inr n_pixels =>
      inr (df_getitem_mask ((λ x, num_ne x num_zero) <$> n_pixels) table)
  | inl e => inl e
  end.

(** [table.to_csv(path, sep=sep, index=index, na_rep=na_rep)] *)
Definition to_csv (table : DataFrame) (path sep : string) (index : bool)
    (na_rep : string) : M unit :=
  call (EvToCsv table path sep index na_rep)
       (write_text env path
          (to_csv_text (float_repr env) table sep index na_rep)).

Definition compute_default_table (seg_path seg_key table_path : string)
    (resolution : list num) (tmp_folder target : string) (max_jobs : Z)
    (correct_anchors : bool) : M unit :=
  ndim ← lift (open_file_ndim env seg_path seg_key);
  table ←
    (if (ndim =? 2)%nat
     then _compute_table_2d seg_path seg_key resolution
     else _compute_table_3d seg_path seg_key resolution correct_anchors
                            tmp_folder target max_jobs);
  table ← lift (_remove_empty_columns table);
  let table_folder := (os_path_split table_path).1 in
  call (EvMakedirs table_folder true) (os_makedirs env table_folder true);;
  to_csv table table_path tab_char false "nan".

End default_table.

(** ** Vocabulary of the statements *)

(** [quiet m]: running [m] leaves the log as it is. *)
Definition quiet {A} (m : M A) : Prop :=
  ∀ w r w', m w = (r, w') → log w' = log w.

(** The effect of one run of the translator on a row of the buffer, for a
    batch that occupies the columns [c0], [c1], [c2] and the factors
    [ra], [rb], [rc] at the head of [res_in_micron]. *)
Definition translated_row (c0 c1 c2 : nat) (ra rb rc : num)
    (row : list num) : list num :=
  alter (λ x, num_mul x rc) c0
    (alter (λ x, num_mul x rb) c1
       (alter (λ x, num_mul x ra) c2 row)).

(** The inverse the round trip is stated with: reverse the axis order of
    every tuple, then divide each axis by its resolution. *)
Definition untranslate (resolution : list num) (batch : list (list num))
  : list (list num) :=
  (λ t, zip_with num_div (reverse t) resolution) <$> batch.

(** What a pure translator would return for a batch: every tuple reversed
    and scaled by the reversed resolution. *)
Definition translated (resolution : list num) (batch : list (list num))
  : list (list num) :=
  (λ t, zip_with num_mul (reverse t) (reverse resolution)) <$> batch.

(** Every tuple scaled in its own axis order. *)
Definition scaled (resolution : list num) (batch : list (list num))
  : list (list num) :=
  (λ t, zip_with num_mul t resolution) <$> batch.

(** The values a view shows in a world. *)
Definition batch (w : World) (v : view) : list (list num) :=
  rows (view_to_array (store w) v).

(** ** Sample inputs *)

(** The float [a / b]. *)
Definition frac (a : Z) (b : positive) : num := Fin (Q2Qc (a # b)).

(** An attribute array as the morphology workflow leaves it: label, size,
    centre of mass (z, y, x), bounding box minimum and maximum.  Label 0 is
    the background and label 2 has no voxel. *)
Definition sample_attributes : ndarray :=
  mk_ndarray 11
    [ [frac 0 1; frac 100 1; frac 1 1; frac 2 1; frac 3 1;
       frac 0 1; frac 0 1; frac 0 1; frac 9 1; frac 9 1; frac 9 1];
      [frac 1 1; frac 5 1; frac 1 2; frac 2 1; frac 3 1;
       frac 1 1; frac 2 1; frac 3 1; frac 4 1; frac 5 1; frac 6 1];
      [frac 2 1; frac 0 1; frac 0 1; frac 0 1; frac 0 1;
       frac 0 1; frac 0 1; frac 0 1; frac 0 1; frac 0 1; frac 0 1] ].

(** A world that holds the sample attributes as its only buffer. *)
Definition sample_world : World := mk_world [sample_attributes] [].

(** [attributes[:, 2:5]] in [sample_world]. *)
Definition sample_com : view := slice_cols 2 5 (mk_view 0 0 11 false).

Definition empty_world : World := mk_world [] [].

(** A row of the 3D table, from a row of the attribute array and the three
    factors at the head of the reversed resolution. *)
Definition row_3d (ra rb rc : num) (row : list num) : list num :=
  [get row 0;
   num_mul (get row 4) ra; num_mul (get row 3) rb; num_mul (get row 2) rc;
   num_mul (get row 7) ra; num_mul (get row 6) rb; num_mul (get row 5) rc;
   num_mul (get row 10) ra; num_mul (get row 9) rb; num_mul (get row 8) rc;
   get row 1].

(** The attribute array after [_n5_to_pandas] has run on it without
    supplied anchors: the three coordinate batches are scaled. *)
Definition attributes_after (ra rb rc : num) (row : list num) : list num :=
  translated_row 8 9 10 ra rb rc
    (translated_row 5 6 7 ra rb rc
       (translated_row 2 3 4 ra rb rc row)).

(** The table of the 3D path before the background row is dropped. *)
Definition table_3d (ra rb rc : num) (a : ndarray) : DataFrame :=
  mk_df col_names_3d (imap (λ i r, (i, r)) (row_3d ra rb rc <$> rows a)).

(** The events a run has added to the log. *)
Definition new_events (w w' : World) : list event :=
  drop (length (log w)) (log w').

(** The world after some more calls to the outside. *)
Definition logged (w : World) (evs : list event) : World :=
  mk_world (store w) (log w ++ evs).

(** Creating the destination folder or writing the table. *)
Definition is_output_write (e : event) : bool :=
  match e with
  | EvMakedirs _ _ | EvToCsv _ _ _ _ _ => true
  | EvWriteGlobalConfig _ | EvLuigiBuild _ => false
  end.

Definition is_not_implemented {A} (r : exn + A) : bool :=
  match r with
  | inl (NotImplementedError _) => true
  | _ => false
  end.

(** The task [_table_impl] hands to luigi. *)
Definition workflow_task (input_path input_key tmp_folder target : string)
    (max_jobs : Z) : MorphologyWorkflow :=
  {| task_tmp_folder := tmp_folder; task_max_jobs := max_jobs;
     task_target := target;
     task_config_dir := os_path_join tmp_folder "configs";
     task_input_path := input_path; task_input_key := input_key;
     task_output_path := os_path_join tmp_folder "data.n5";
     task_output_key := "attributes";
     task_prefix := "attributes";
     task_max_jobs_merge := Z.min 32 max_jobs |}.

(** The extraction step of [compute_default_table], once the number of
    dimensions is known. *)
Definition extract_table (env : Env) (seg_path seg_key : string)
    (resolution : list num) (tmp_folder target : string) (max_jobs : Z)
    (correct_anchors : bool) (ndim : nat) : M DataFrame :=
  if (ndim =? 2)%nat
  then _compute_table_2d env seg_path seg_key resolution
  else _compute_table_3d env seg_path seg_key resolution correct_anchors
                         tmp_folder target max_jobs.

(** An outside world for the sample runs: a 3D or 2D segmentation, whose
    workflow succeeds or not, and a file system that accepts every call. *)
Definition sample_env (ndim : nat) (workflow_ok : bool) : Env :=
  {| label_image := unit;
     image_ndim := λ _, 2%nat;
     open_file_ndim := λ _ _, inr ndim;
     open_file_image := λ _ _, inr tt;
     open_file_array := λ _ _, inr sample_attributes;
     eccentricityCenters := λ _, inr [[frac 0 1; frac 0 1];
                                      [frac 3 2; frac 5 2]];
     regionprops := λ _, inr [mk_region 1 [0; 0; 4; 4]%Z 16];
     write_global_config := λ _, inr tt;
     luigi_build := λ _, inr workflow_ok;
     os_makedirs := λ _ _, inr tt;
     write_text := λ _ _, inr tt;
     float_repr := λ _, "1.0" |}.

(** A sample call of [compute_default_table]. *)
Definition sample_run (ndim : nat) (workflow_ok : bool)
    (resolution : list num) (max_jobs : Z) (correct_anchors : bool)
  : (exn + unit) * World :=
  compute_default_table (sample_env ndim workflow_ok) "seg.n5" "seg"
    "out/tables/default.tsv" resolution "tmp" "local" max_jobs correct_anchors
    empty_world.

(** The value a run has returned, or [d] when it has raised. *)
Definition returned {A} (d : A) (r : (exn + A) * World) : A :=
  match r.1 with
  | inr a => a
  | inl _ => d
  end.

Definition empty_table : DataFrame := mk_df [] [].

(** The entries of the rows of a table in column [i]. *)
Definition column_at (i : nat) (rws : list (nat * list num)) : list num :=
  (λ r, get r.2 i) <$> rws.

(** The text of a table as tab-separated values: the column names, then
    the rows, every line closed by a newline, with "nan" for a missing
    value and no row label. *)
Definition tsv_text (repr : Qc → string) (table : DataFrame) : string :=
  String.concat EmptyString
    ((String.concat tab_char (columns table) +:+ newline)
     :: ((λ r, String.concat tab_char
                 ((λ x, match x with
                        | NaN => "nan"
                        | Fin q => repr q
                        end) <$> r.2)
               +:+ newline) <$> df_rows table)).

(** The extraction step of the sample 3D run. *)
Definition sample_extract : (exn + DataFrame) * World :=
  extract_table (sample_env 3 true) "seg.n5" "seg"
    [frac 1 1; frac 2 1; frac 3 1] "tmp" "local" 8 false 3 empty_world.

(** The anchor of a row under the merge policy: the supplied anchor, unless
    all its coordinates are close to zero; then the centre of mass of the
    row. *)
Definition merged_anchor (row anchor : list num) : list num :=
  if forallb (λ x, np_isclose x num_zero) anchor
  then select [2; 3; 4]%nat row
  else anchor.

(** A row of the 3D table when anchors are supplied. *)
Definition merged_row (ra rb rc : num) (row anchor : list num) : list num :=
  [get row 0]
  ++ zip_with num_mul (reverse (merged_anchor row anchor)) [ra; rb; rc]
  ++ [num_mul (get row 7) ra; num_mul (get row 6) rb; num_mul (get row 5) rc;
      num_mul (get row 10) ra; num_mul (get row 9) rb; num_mul (get row 8) rc;
      get row 1].

(** The table the last call of the log has written. *)
Definition last_written (w : World) : DataFrame :=
  match last (log w) with
  | Some (EvToCsv table _ _ _ _) => table
  | _ => empty_table
  end.

(** A world with an array of three supplied anchors (z, y, x), one per row
    of the sample attributes: the first is missing, the second is given,
    the third is missing up to noise. *)
Definition sample_anchor_world : World :=
  mk_world
    [mk_ndarray 3
       [ [frac 0 1; frac 0 1; frac 0 1];
         [frac 7 1; frac 8 1; frac 9 1];
         [frac 0 1; frac 1 1000000000; frac 0 1] ]]
    [].

Definition sample_anchors : view := mk_view 0 0 3 false.

(** The row the 2D extractor builds for a region. *)
Definition row_2d (centers : list (list num)) (resolution : list num)
    (p : RegionProperties) : list num :=
  [num_of_nat (label p)]
  ++ zip_with (λ ce res, num_mul ce res) (default [] (centers !! label p))
              resolution
  ++ zip_with (λ bb res, num_mul (num_of_Z bb) res) (take 2 (bbox p))
              resolution
  ++ zip_with (λ bb res, num_mul (num_of_Z bb) res) (drop 2 (bbox p))
              resolution
  ++ [num_of_Z (area p)].

(** A region of a 2D image as the collaborators describe it: a centre with
    two coordinates and a bounding box with four. *)
Definition region_2d (centers : list (list num)) (p : RegionProperties)
  : Prop :=
  (∃ ce, centers !! label p = Some ce ∧ length ce = 2%nat)
  ∧ length (bbox p) = 4%nat.

(** ** check_and_copy_default_table *)

(** What the copy of an existing table needs besides [Env]: the two
    functions of this package it imports, [read_table] of
    [mobie/tables/utils.py] and [get_columns_for_table_format] of
    [mobie/validation/tables.py], which are not part of the sources at
    hand.  Of the three values the second returns, the required and the
    recommended column names are used. *)
Record TableTools : Type := mk_tools {
  read_table : string → exn + DataFrame;
  get_columns_for_table_format :
    DataFrame → bool → exn + (gset string * gset string)
}.

(** A warning issued through [warnings.warn], with the columns it names. *)
Inductive warning : Type :=
| UserWarning (missing_columns : list string).

(** Python code that may also warn: the world and the warnings issued so
    far are threaded together. *)
Definition MW (A : Type) : Type :=
  World * list warning → (exn + A) * (World * list warning).

#[global] Instance MW_ret : MRet MW := λ A a s, (inr a, s).

#[global] Instance MW_bind : MBind MW := λ A B f m s,
  match m s with
  | (inr a, s') => f a s'
  | (inl e, s') => (inl e, s')
  end.

(** Code of [M], run where warnings are recorded. *)
Definition in_world {A} (m : M A) : MW A := λ s,
  ((m s.1).1, ((m s.1).2, s.2)).

(** [warnings.warn(...)] *)
Definition warnings_warn (x : warning) : MW unit := λ s,
  (inr tt, (s.1, s.2 ++ [x])).

(** [bool(l)] of a list *)
Definition nonempty {A} (l : list A) : bool :=
  match l with
  | [] => false
  | _ :: _ => true
  end.

Definition check_and_copy_default_table (env : Env) (tools : TableTools)
    (input_path output_path : string) (is_2d suppress_warnings : bool)
  : MW unit :=
  tab ← in_world (lift (read_table tools input_path));
  '(required_column_names, recommended_column_names) ←
    in_world (lift (get_columns_for_table_format tools tab is_2d));
  let missing_columns :=
    elements (required_column_names ∖ list_to_set (columns tab)) in
  (if nonempty missing_columns then in_world (raise ValueError)
   else mret tt);;
  let missing_columns :=
    elements (recommended_column_names ∖ list_to_set (columns tab)) in
  (if nonempty missing_columns && negb suppress_warnings
   then warnings_warn (UserWarning missing_columns)
   else mret tt);;
  in_world (to_csv env tab output_path tab_char false "nan").

(** A table with the 3D columns whose second row has no voxel, the tools
    that read it from any path and ask for label_id and n_pixels, with
    anchor_x and a column named comment recommended. *)
Definition sample_table : DataFrame :=
  mk_df col_names_3d
    [(0%nat, [frac 1 1; frac 9 1; frac 4 1; frac 1 2;
              frac 9 1; frac 4 1; frac 1 1;
              frac 18 1; frac 10 1; frac 4 1; frac 5 1]);
     (1%nat, [frac 2 1; frac 0 1; frac 0 1; frac 0 1;
              frac 0 1; frac 0 1; frac 0 1;
              frac 0 1; frac 0 1; frac 0 1; frac 0 1])].

Definition sample_tools (required : list string) : TableTools :=
  {| read_table := λ _, inr sample_table;
     get_columns_for_table_format := λ _ _,
       inr (list_to_set required, list_to_set ["anchor_x"; "comment"]) |}.

(** The sample world of a 2D image, with the regions that [regionprops]
    reports as a parameter. *)
Definition sample_env_2d (props : list RegionProperties) : Env :=
  {| label_image := unit;
     image_ndim := λ _, 2%nat;
     open_file_ndim := λ _ _, inr 2%nat;
     open_file_image := λ _ _, inr tt;
     open_file_array := λ _ _, inr sample_attributes;
     eccentricityCenters := λ _, inr [[frac 0 1; frac 0 1];
                                      [frac 3 2; frac 5 2]];
     regionprops := λ _, inr props;
     write_global_config := λ _, inr tt;
     luigi_build := λ _, inr true;
     os_makedirs := λ _ _, inr tt;
     write_text := λ _ _, inr tt;
     float_repr := λ _, "1.0" |}.

(** The table of the 3D path as it is written: the rows of [table_3d]
    whose label and whose n_pixels are not zero. *)
Definition final_table_3d (ra rb rc : num) (a : ndarray) : DataFrame :=
  mk_df col_names_3d
    (filter (λ r, get r.2 0 ≠ num_zero ∧ get r.2 10 ≠ num_zero)
            (df_rows (table_3d ra rb rc a))).

(** Whether a path has a separator. *)
Fixpoint has_sep (p : string) : bool :=
  match p with
  | EmptyString => false
  | String c p' => is_sep c || has_sep p'
  end.

(** An attribute array of a volume without objects: the background row
    alone. *)
Definition background_attributes : ndarray :=
  mk_ndarray 11
    [ [frac 0 1; frac 64 1; frac 3 2; frac 3 2; frac 3 2;
       frac 0 1; frac 0 1; frac 0 1; frac 4 1; frac 4 1; frac 4 1] ].

(** The sample world of a 3D segmentation with the attribute array that
    the workflow leaves as a parameter. *)
Definition sample_env_3d (attributes : ndarray) : Env :=
  {| label_image := unit;
     image_ndim := λ _, 3%nat;
     open_file_ndim := λ _ _, inr 3%nat;
     open_file_image := λ _ _, inr tt;
     open_file_array := λ _ _, inr attributes;
     eccentricityCenters := λ _, inr [];
     regionprops := λ _, inr [];
     write_global_config := λ _, inr tt;
     luigi_build := λ _, inr true;
     os_makedirs := λ _ _, inr tt;
     write_text := λ _ _, inr tt;
     float_repr := λ _, "1.0" |}.

(** A world with an anchor array that holds the centres of mass of the
    sample attributes. *)
Definition sample_com_world : World :=
  mk_world
    [mk_ndarray 3
       [ [frac 1 1; frac 2 1; frac 3 1];
         [frac 1 2; frac 2 1; frac 3 1];
         [frac 0 1; frac 0 1; frac 0 1] ]]
    [].

(** The sample world of a 3D segmentation on a system whose [os.makedirs]
    refuses the empty path, as CPython's does: [mkdir] of the empty path
    fails with "No such file or directory" (FileNotFoundError, an
    OSError), and [exist_ok=True] does not absorb the error because the
    empty path is not a directory.  Every other folder can be made. *)
Definition sample_env_posix : Env :=
  {| label_image := unit;
     image_ndim := λ _, 3%nat;
     open_file_ndim := λ _ _, inr 3%nat;
     open_file_image := λ _ _, inr tt;
     open_file_array := λ _ _, inr sample_attributes;
     eccentricityCenters := λ _, inr [];
     regionprops := λ _, inr [];
     write_global_config := λ _, inr tt;
     luigi_build := λ _, inr true;
     os_makedirs := λ name _,
       if is_empty name then inl (OSError "No such file or directory")
       else inr tt;
     write_text := λ _ _, inr tt;
     float_repr := λ _, "1.0" |}.

(** * Properties *)

(** ** os.path on sample paths *)

Example os_path_split_nested :
  os_path_split "out/tables/default.tsv" = ("out/tables", "default.tsv").
Proof. reflexivity. Qed.

Example os_path_split_bare :
  os_path_split "default.tsv" = (EmptyString, "default.tsv").
Proof. reflexivity. Qed.

Example os_path_split_root :
  os_path_split "//default.tsv" = ("//", "default.tsv").
Proof. reflexivity. Qed.

Example os_path_join_plain :
  os_path_join "tmp" "data.n5" = "tmp/data.n5".
Proof. reflexivity. Qed.

Example os_path_join_slash :
  os_path_join "tmp/" "configs" = "tmp/configs".
Proof. reflexivity. Qed.


(** ** Running monadic code *)

Section monad_facts.

Context {A B : Type}.

Lemma run_bind_inr (m : M A) (f : A → M B) w a w1 :
  m w = (inr a, w1) → (m ≫= f) w = f a w1.
Proof. intros H. unfold mbind, M_bind. by rewrite H. Qed.

Lemma run_bind_inl (m : M A) (f : A → M B) w e w1 :
  m w = (inl e, w1) → (m ≫= f) w = (inl e, w1).
Proof. intros H. unfold mbind, M_bind. by rewrite H. Qed.

Lemma run_bind_cases (m : M A) (f : A → M B) w r w' :
  (m ≫= f) w = (r, w') →
  (∃ e, m w = (inl e, w') ∧ r = inl e)
  ∨ (∃ a w1, m w = (inr a, w1) ∧ f a w1 = (r, w')).
Proof.
  unfold mbind, M_bind. destruct (m w) as [[e|a] w1]; intros H.
  - left. exists e. by inversion H.
  - right. by exists a, w1.
Qed.

Lemma run_bind_returns (m : M A) (f : A → M B) w b w' :
  (m ≫= f) w = (inr b, w') →
  ∃ a w1, m w = (inr a, w1) ∧ f a w1 = (inr b, w').
Proof.
  intros H. apply run_bind_cases in H as [(e & _ & ?)|H]; [done|exact H].
Qed.

End monad_facts.

Lemma run_lift {A} (r : exn + A) w : lift r w = (r, w).
Proof. reflexivity. Qed.

Lemma run_mret {A} (a : A) w : (mret a : M A) w = (inr a, w).
Proof. reflexivity. Qed.

(** ** Code that makes no call to the outside *)

Lemma quiet_mret {A} (a : A) : quiet (mret a : M A).
Proof. intros w r w' H. by inversion H. Qed.

Lemma quiet_raise {A} e : quiet (raise e : M A).
Proof. intros w r w' H. by inversion H. Qed.

Lemma quiet_lift {A} (r : exn + A) : quiet (lift r).
Proof. intros w r' w' H. by inversion H. Qed.

Lemma quiet_assert b : quiet (assert_ b).
Proof. destruct b; [apply quiet_mret | apply quiet_raise]. Qed.

Lemma quiet_bind {A B} (m : M A) (f : A → M B) :
  quiet m → (∀ a, quiet (f a)) → quiet (m ≫= f).
Proof.
  intros Hm Hf w r w' H.
  apply run_bind_cases in H as [(e & H & _)|(a & w1 & H1 & H2)].
  - by apply Hm in H.
  - apply Hm in H1. apply Hf in H2. congruence.
Qed.

Lemma quiet_for {A} (xs : list A) (body : A → M unit) :
  (∀ x, quiet (body x)) → quiet (for_ xs body).
Proof.
  intros Hb. induction xs as [|x xs IH]; simpl.
  - apply quiet_mret.
  - apply quiet_bind; [apply Hb | intros _; exact IH].
Qed.

Lemma quiet_mapM {A B} (f : A → M B) (xs : list A) :
  (∀ x, quiet (f x)) → quiet (mapM f xs).
Proof.
  intros Hf. induction xs as [|x xs IH]; simpl.
  - apply quiet_mret.
  - apply quiet_bind; [apply Hf | intros y].
    apply quiet_bind; [exact IH | intros ys; apply quiet_mret].
Qed.

Lemma quiet_alloc a : quiet (alloc a).
Proof. intros w r w' H. by inversion H. Qed.

Lemma quiet_read v : quiet (read v).
Proof. intros w r w' H. by inversion H. Qed.

Lemma quiet_imul col r : quiet (imul col r).
Proof. intros w r' w' H. by inversion H. Qed.

Lemma quiet_getitem_mask v mask : quiet (getitem_mask v mask).
Proof.
  intros w r w' H. unfold getitem_mask in H.
  by destruct (_ =? _)%nat; inversion H.
Qed.

Lemma quiet_setitem_mask v mask vals : quiet (setitem_mask v mask vals).
Proof.
  intros w r w' H. unfold setitem_mask in H.
  destruct (negb _); [by inversion H|].
  by destruct (negb _); inversion H.
Qed.

Create HintDb quiet discriminated.

#[global] Hint Resolve quiet_mret quiet_raise quiet_lift quiet_assert
  quiet_alloc quiet_read quiet_imul quiet_getitem_mask quiet_setitem_mask
  : quiet.
#[global] Hint Extern 2 (quiet (_ ≫= _)) =>
  apply quiet_bind; [|intros ?] : quiet.
#[global] Hint Extern 2 (quiet (for_ _ _)) =>
  apply quiet_for; intros ? : quiet.
#[global] Hint Extern 2 (quiet (mapM _ _)) =>
  apply quiet_mapM; intros ? : quiet.
#[global] Hint Extern 3 (quiet (match ?x with _ => _ end)) =>
  destruct x : quiet.

Lemma quiet_translate_coordinate_tuple res_in_micron coords :
  quiet (translate_coordinate_tuple res_in_micron coords).
Proof. unfold translate_coordinate_tuple. auto 10 with quiet. Qed.

#[global] Hint Resolve quiet_translate_coordinate_tuple : quiet.

Lemma quiet__n5_to_pandas env input_path input_key resolution anchors :
  quiet (_n5_to_pandas env input_path input_key resolution anchors).
Proof. unfold _n5_to_pandas. auto 20 with quiet. Qed.

Lemma quiet__compute_table_2d env seg_path seg_key resolution :
  quiet (_compute_table_2d env seg_path seg_key resolution).
Proof. unfold _compute_table_2d. auto 20 with quiet. Qed.

(** ** Rows, columns and views *)

Lemma get_alter_mul row c r :
  get (alter (λ x, num_mul x r) c row) c = num_mul (get row c) r.
Proof.
  unfold get. rewrite list_lookup_alter_eq. by destruct (row !! c).
Qed.

Lemma get_alter_ne (f : num → num) row c c' :
  c ≠ c' → get (alter f c row) c' = get row c'.
Proof. intros H. unfold get. by rewrite list_lookup_alter_ne. Qed.

Lemma view_cols_reverse v :
  view_cols (reverse_cols v) = reverse (view_cols v).
Proof.
  unfold view_cols, reverse_cols; simpl.
  destruct (reversed v); simpl; [by rewrite reverse_involutive | done].
Qed.

(** A view of width 3 sits on three different columns. *)
Lemma view_cols_width3 v :
  width v = 3%nat →
  ∃ c0 c1 c2, view_cols v = [c0; c1; c2] ∧ c0 ≠ c1 ∧ c0 ≠ c2 ∧ c1 ≠ c2.
Proof.
  intros Hw. unfold view_cols. rewrite Hw.
  destruct (reversed v); simpl.
  - exists (S (S (start v))), (S (start v)), (start v).
    repeat split; [done | lia..].
  - exists (start v), (S (start v)), (S (S (start v))).
    repeat split; lia.
Qed.

Lemma translated_row_select_rev c0 c1 c2 ra rb rc row :
  c0 ≠ c1 → c0 ≠ c2 → c1 ≠ c2 →
  select [c2; c1; c0] (translated_row c0 c1 c2 ra rb rc row)
  = [num_mul (get row c2) ra; num_mul (get row c1) rb;
     num_mul (get row c0) rc].
Proof.
  intros H01 H02 H12. unfold select, translated_row; simpl.
  rewrite get_alter_mul.
  rewrite (get_alter_ne _ _ c0 c1), get_alter_mul by done.
  rewrite (get_alter_ne _ _ c0 c2), (get_alter_ne _ _ c1 c2), get_alter_mul
    by done.
  by rewrite (get_alter_ne _ _ c2 c1), (get_alter_ne _ _ c1 c0),
    (get_alter_ne _ _ c2 c0) by done.
Qed.

Lemma translated_row_select c0 c1 c2 ra rb rc row :
  c0 ≠ c1 → c0 ≠ c2 → c1 ≠ c2 →
  select [c0; c1; c2] (translated_row c0 c1 c2 ra rb rc row)
  = [num_mul (get row c0) rc; num_mul (get row c1) rb;
     num_mul (get row c2) ra].
Proof.
  intros H01 H02 H12. unfold select, translated_row; simpl.
  rewrite get_alter_mul.
  rewrite (get_alter_ne _ _ c0 c1), get_alter_mul by done.
  rewrite (get_alter_ne _ _ c0 c2), (get_alter_ne _ _ c1 c2), get_alter_mul
    by done.
  by rewrite (get_alter_ne _ _ c2 c1), (get_alter_ne _ _ c1 c0),
    (get_alter_ne _ _ c2 c0) by done.
Qed.

Lemma translated_row_select_other c0 c1 c2 ra rb rc row cs :
  c0 ∉ cs → c1 ∉ cs → c2 ∉ cs →
  select cs (translated_row c0 c1 c2 ra rb rc row) = select cs row.
Proof.
  intros H0 H1 H2. unfold select, translated_row.
  apply list_fmap_ext. intros i c Hc.
  apply list_elem_of_lookup_2 in Hc.
  rewrite !get_alter_ne; [done | by intros ->..].
Qed.

(** ** The Coordinate Translator *)

(** One run of the translator: the result is the reversed view of its
    argument, and the buffer behind it is rewritten row by row. *)
Lemma translate_coordinate_tuple_run res_in_micron ra rb rc tl
    coords c0 c1 c2 w :
  res_in_micron = ra :: rb :: rc :: tl →
  view_cols coords = [c0; c1; c2] →
  translate_coordinate_tuple res_in_micron coords w
  = (inr (reverse_cols coords),
     mk_world (alter (map_rows (translated_row c0 c1 c2 ra rb rc))
                     (base coords) (store w))
              (log w)).
Proof.
  intros -> Hc. unfold translate_coordinate_tuple; simpl.
  unfold mbind, M_bind, lift, getitem_col, imul; simpl.
  rewrite view_cols_reverse, Hc; simpl.
  unfold mret, M_ret. f_equal. f_equal.
  rewrite !list_alter_alter_eq. apply list_alter_ext; [|done].
  intros a _. unfold map_rows; simpl. f_equal.
  rewrite <-!list_fmap_compose. done.
Qed.

Lemma batch_after_translate w coords c0 c1 c2 ra rb rc v :
  base v = base coords →
  batch (mk_world (alter (map_rows (translated_row c0 c1 c2 ra rb rc))
                         (base coords) (store w)) (log w)) v
  = match store w !! base coords with
    | Some a =>
        (select (view_cols v) ∘ translated_row c0 c1 c2 ra rb rc) <$> rows a
    | None => []
    end.
Proof.
  intros Hb. unfold batch, view_to_array; simpl.
  rewrite Hb, list_lookup_alter_eq.
  destruct (store w !! base coords) as [a|]; simpl; [|done].
  by rewrite <-list_fmap_compose.
Qed.

Lemma batch_after_translate_ne w coords c0 c1 c2 ra rb rc v :
  base v ≠ base coords →
  batch (mk_world (alter (map_rows (translated_row c0 c1 c2 ra rb rc))
                         (base coords) (store w)) (log w)) v
  = batch w v.
Proof.
  intros Hb. unfold batch, view_to_array; simpl.
  by rewrite list_lookup_alter_ne.
Qed.

Lemma num_div_mul x r : positive_num r → num_div (num_mul x r) r = x.
Proof.
  destruct r as [|q]; [done|]. intros Hq. destruct x as [|p]; simpl; [done|].
  assert (q ≠ 0%Qc) as Hne by (symmetry; by apply Qclt_not_eq).
  rewrite decide_False by done. f_equal. by apply Qcdiv_mult_l.
Qed.

(** The spec's inverse undoes what a pure translator returns. *)
Lemma untranslate_translated r0 r1 r2 (b : list (list num)) :
  positive_num r0 → positive_num r1 → positive_num r2 →
  Forall (λ t, length t = 3%nat) b →
  untranslate [r0; r1; r2] (translated [r0; r1; r2] b) = b.
Proof.
  intros H0 H1 H2 Hb. unfold untranslate, translated.
  rewrite <-list_fmap_compose. rewrite <-(list_fmap_id b) at 2.
  apply list_fmap_ext. intros i t Ht.
  eapply Forall_lookup_1 in Hb; [|exact Ht].
  destruct t as [|z [|y [|x [|]]]]; try done. simpl.
  by rewrite !num_div_mul.
Qed.

Lemma batch_width w v : Forall (λ t, length t = width v) (batch w v).
Proof.
  unfold batch, view_to_array; simpl.
  destruct (store w !! base v) as [a|]; [|by constructor].
  apply Forall_fmap, Forall_true. intros row. simpl.
  unfold select. rewrite length_fmap. unfold view_cols.
  destruct (reversed v); by rewrite ?length_reverse, length_seq.
Qed.

(** What a run of the translator on a 3-wide batch does, for a resolution
    of length 3: it returns the reversed view, through which the batch
    reads reversed and scaled; it does so by scaling the columns of the
    batch where they are, in the buffer; it touches nothing else. *)
Lemma translate_coordinate_tuple_effect w coords r0 r1 r2 :
  width coords = 3%nat →
  ∃ w',
    translate_coordinate_tuple (reverse [r0; r1; r2]) coords w
    = (inr (reverse_cols coords), w')
    ∧ batch w' (reverse_cols coords) = translated [r0; r1; r2] (batch w coords)
    ∧ batch w' coords = scaled [r0; r1; r2] (batch w coords)
    ∧ log w' = log w
    ∧ length (store w') = length (store w)
    ∧ (∀ v, base v ≠ base coords → batch w' v = batch w v)
    ∧ (∀ v, (∀ c, c ∈ view_cols coords → c ∉ view_cols v) →
            batch w' v = batch w v).
Proof.
  intros Hw.
  destruct (view_cols_width3 coords Hw) as (c0 & c1 & c2 & Hc & H01 & H02 & H12).
  eexists. split.
  { eapply translate_coordinate_tuple_run; [reflexivity | exact Hc]. }
  split; [|split; [|split; [done|split; [|split]]]].
  - rewrite batch_after_translate by done.
    unfold translated, batch, view_to_array; simpl.
    destruct (store w !! base coords) as [a|]; simpl; [|done].
    rewrite <-list_fmap_compose. apply list_fmap_ext. intros i row _.
    unfold compose. rewrite view_cols_reverse, Hc.
    change (reverse [c0; c1; c2]) with [c2; c1; c0].
    by rewrite translated_row_select_rev.
  - rewrite batch_after_translate by done.
    unfold scaled, batch, view_to_array; simpl.
    destruct (store w !! base coords) as [a|]; simpl; [|done].
    rewrite <-list_fmap_compose. apply list_fmap_ext. intros i row _.
    unfold compose. rewrite Hc. by rewrite translated_row_select.
  - simpl. by rewrite length_alter.
  - intros v Hv. by apply batch_after_translate_ne.
  - intros v Hv. destruct (decide (base v = base coords)) as [Hb|Hb];
      [|by apply batch_after_translate_ne].
    rewrite batch_after_translate by done.
    unfold batch, view_to_array; simpl. rewrite Hb.
    destruct (store w !! base coords) as [a|]; simpl; [|done].
    apply list_fmap_ext. intros i row _. unfold compose.
    apply translated_row_select_other; intros Hin; eapply Hv; try exact Hin;
      rewrite Hc; set_solver.
Qed.

(** C2: coordinate round trip.  For every batch of 3-wide tuples (a view of
    width 3 into any buffer of any world) and every resolution vector of
    three positive values, the translator returns a batch from which
    reversing the axis order and dividing each axis by its resolution
    recovers, exactly, the values the batch had before the call. *)
Theorem translate_coordinate_tuple_round_trip w coords resolution :
  width coords = 3%nat →
  length resolution = 3%nat →
  Forall positive_num resolution →
  ∃ out w',
    translate_coordinate_tuple (reverse resolution) coords w = (inr out, w')
    ∧ untranslate resolution (batch w' out) = batch w coords.
Proof.
  intros Hw Hl Hpos.
  destruct resolution as [|r0 [|r1 [|r2 [|]]]]; try done.
  apply Forall_cons in Hpos as [H0 Hpos].
  apply Forall_cons in Hpos as [H1 Hpos].
  apply Forall_cons in Hpos as [H2 _].
  destruct (translate_coordinate_tuple_effect w coords r0 r1 r2 Hw)
    as (w' & Hrun & Hout & _).
  exists (reverse_cols coords), w'. split; [exact Hrun|].
  rewrite Hout. apply untranslate_translated; try done.
  rewrite <-Hw. apply batch_width.
Qed.

Lemma translate_coordinate_tuple_round_trip_witness :
  ∃ out w',
    translate_coordinate_tuple (reverse [frac 1 2; frac 2 1; frac 3 1])
                               sample_com sample_world
    = (inr out, w')
    ∧ untranslate [frac 1 2; frac 2 1; frac 3 1] (batch w' out)
      = batch sample_world sample_com.
Proof.
  apply translate_coordinate_tuple_round_trip.
  - reflexivity.
  - reflexivity.
  - repeat constructor.
Defined.

(** ** The 3D table from the attribute array *)

Lemma store_alter_last {A} (F : A → A) (l : list A) (a : A) :
  alter F (length l) (l ++ [a]) = l ++ [F a].
Proof.
  replace (length l) with (length l + 0)%nat by lia.
  by rewrite alter_app_r.
Qed.

Lemma store_lookup_last {A} (l : list A) (a : A) :
  (l ++ [a]) !! length l = Some a.
Proof. by rewrite list_lookup_middle. Qed.

Lemma zip_with_app_fmap {A B} (f g : A → list B) (l : list A) :
  zip_with app (f <$> l) (g <$> l) = (λ x, f x ++ g x) <$> l.
Proof. by rewrite zip_with_fmap_l, zip_with_fmap_r, zip_with_diag. Qed.

Lemma row_3d_from_views ra rb rc row :
  select [0%nat] (attributes_after ra rb rc row)
  ++ select [4; 3; 2]%nat (attributes_after ra rb rc row)
  ++ select [7; 6; 5]%nat (attributes_after ra rb rc row)
  ++ select [10; 9; 8]%nat (attributes_after ra rb rc row)
  ++ select [1%nat] (attributes_after ra rb rc row)
  = row_3d ra rb rc row.
Proof.
  do 11 (destruct row as [|? row]; [reflexivity|]). reflexivity.
Qed.

(** [_n5_to_pandas] without supplied anchors, on an attribute array of at
    least 11 columns and a resolution of at least 3 values: the table it
    returns and the store it leaves. *)
Lemma _n5_to_pandas_run env input_path input_key resolution ra rb rc tl a w :
  open_file_array env input_path input_key = inr a →
  (11 ≤ ncols a)%nat →
  reverse resolution = ra :: rb :: rc :: tl →
  _n5_to_pandas env input_path input_key resolution None w
  = (remove_background_label_row (table_3d ra rb rc a),
     mk_world (store w ++ [map_rows (attributes_after ra rb rc) a]) (log w)).
Proof.
  intros Ha Hn Hres. unfold _n5_to_pandas.
  erewrite run_bind_inr by (rewrite Ha; apply run_lift).
  erewrite run_bind_inr by reflexivity.
  destruct a as [n rws]; simpl in Hn |- *.
  do 11 (destruct n as [|n]; [lia|]). clear Hn.
  erewrite run_bind_inr
    by (eapply translate_coordinate_tuple_run; [exact Hres | reflexivity]).
  erewrite run_bind_inr
    by (eapply translate_coordinate_tuple_run; [exact Hres | reflexivity]).
  erewrite run_bind_inr
    by (eapply translate_coordinate_tuple_run; [exact Hres | reflexivity]).
  simpl. rewrite !list_alter_alter_eq, store_alter_last.
  unfold mbind, M_bind, read, view_to_array; simpl.
  rewrite !store_lookup_last. simpl.
  unfold lift, np_concatenate; simpl.
  rewrite !length_fmap, !Nat.eqb_refl; simpl.
  rewrite <-!list_fmap_compose.
  rewrite !zip_with_app_fmap.
  f_equal.
  - unfold table_3d. do 3 f_equal.
    apply list_fmap_ext. intros i row _. simpl.
    by rewrite <-row_3d_from_views.
  - do 3 f_equal. unfold map_rows; simpl. f_equal.
    by rewrite <-!list_fmap_compose.
Qed.

Lemma length_view_cols v : length (view_cols v) = width v.
Proof.
  unfold view_cols. destruct (reversed v);
    by rewrite ?length_reverse, length_seq.
Qed.

(** The translator returns only for batches of at least three columns and
    with at least three factors at hand. *)
Lemma translate_coordinate_tuple_returns res_in_micron coords w out w' :
  translate_coordinate_tuple res_in_micron coords w = (inr out, w') →
  (3 ≤ width coords)%nat ∧ (3 ≤ length res_in_micron)%nat.
Proof.
  unfold translate_coordinate_tuple. intros H.
  apply run_bind_returns in H as (u1 & w1 & H & _). simpl in H.
  apply run_bind_returns in H as (u2 & w2 & _ & H).
  apply run_bind_returns in H as (u3 & w3 & _ & H).
  apply run_bind_returns in H as (u4 & w4 & H & _).
  apply run_bind_returns in H as (col & w5 & Hcol & H).
  apply run_bind_returns in H as (r & w6 & Hr & _).
  unfold lift, getitem_col, list_getitem in Hcol, Hr.
  destruct (view_cols (reverse_cols coords) !! 2%nat) eqn:Hc;
    [|by inversion Hcol].
  destruct (res_in_micron !! 2%nat) eqn:Hres; [|by inversion Hr].
  apply lookup_lt_Some in Hc, Hres.
  rewrite length_view_cols in Hc. simpl in Hc. lia.
Qed.

(** [_n5_to_pandas] returns a table only from an attribute array of at
    least 11 columns and with a resolution of at least 3 values. *)
Lemma _n5_to_pandas_returns env input_path input_key resolution w df w' :
  _n5_to_pandas env input_path input_key resolution None w = (inr df, w') →
  ∃ a ra rb rc tl,
    open_file_array env input_path input_key = inr a
    ∧ (11 ≤ ncols a)%nat
    ∧ reverse resolution = ra :: rb :: rc :: tl.
Proof.
  unfold _n5_to_pandas. intros H.
  apply run_bind_returns in H as (a & w1 & Ha & H).
  apply run_bind_returns in H as (v & w2 & Hv & H).
  apply run_bind_returns in H as (anchors & w3 & _ & H).
  apply run_bind_returns in H as (minc & w4 & _ & H).
  apply run_bind_returns in H as (maxc & w5 & Hmax & _).
  apply translate_coordinate_tuple_returns in Hmax as [Hw Hr].
  unfold lift in Ha. injection Ha as Ha <-.
  unfold alloc in Hv. injection Hv as <- _.
  unfold slice_cols in Hw; cbn [width reversed] in Hw.
  destruct (reverse resolution) as [|ra [|rb [|rc tl]]] eqn:Hrev;
    simpl in Hr; try lia.
  exists a, ra, rb, rc, tl. repeat split; [done | lia].
Qed.

(** ** The distributed path, step by step *)

Lemma logged_logged w evs evs' :
  logged (logged w evs) evs' = logged w (evs ++ evs').
Proof. unfold logged; simpl. by rewrite app_assoc. Qed.

Lemma new_events_logged w evs : new_events w (logged w evs) = evs.
Proof. unfold new_events, logged; simpl. by rewrite drop_app_length. Qed.

Lemma new_events_app w w' evs :
  log w' = log w ++ evs → new_events w w' = evs.
Proof. intros H. unfold new_events. by rewrite H, drop_app_length. Qed.

Lemma run_call {A} e (answer : exn + A) w :
  call e answer w = (answer, logged w [e]).
Proof. unfold call, emit, lift, mbind, M_bind. by destruct answer. Qed.

Lemma _table_impl_run env input_path input_key tmp_folder target max_jobs w :
  _table_impl env input_path input_key tmp_folder target max_jobs w
  = (match luigi_build env (workflow_task input_path input_key tmp_folder
                                          target max_jobs) with
     | inl e => inl e
     | inr false => inl (RuntimeError "Attribute workflow failed")
     | inr true => inr (os_path_join tmp_folder "data.n5", "attributes")
     end,
     logged w [EvLuigiBuild (workflow_task input_path input_key tmp_folder
                                           target max_jobs)]).
Proof.
  unfold _table_impl, workflow_task.
  unfold mbind at 1, M_bind at 1. rewrite run_call.
  destruct (luigi_build env _) as [e|[|]]; reflexivity.
Qed.

(** The 3D extractor: the config is written, the workflow is run, and only
    then the request for anchor correction is looked at. *)
Lemma _compute_table_3d_run env seg_path seg_key resolution correct_anchors
    tmp_folder target max_jobs w :
  let cfg := EvWriteGlobalConfig (os_path_join tmp_folder "configs") in
  let t := workflow_task seg_path seg_key tmp_folder target max_jobs in
  _compute_table_3d env seg_path seg_key resolution correct_anchors
                    tmp_folder target max_jobs w
  = match write_global_config env (os_path_join tmp_folder "configs") with
    | inl e => (inl e, logged w [cfg])
    | inr _ =>
        match luigi_build env t with
        | inl e => (inl e, logged w [cfg; EvLuigiBuild t])
        | inr false =>
            (inl (RuntimeError "Attribute workflow failed"),
             logged w [cfg; EvLuigiBuild t])
        | inr true =>
            if correct_anchors
            then (inl (NotImplementedError
                         "Anchor correction is not implemented yet"),
                  logged w [cfg; EvLuigiBuild t])
            else _n5_to_pandas env (os_path_join tmp_folder "data.n5")
                               "attributes" resolution None
                               (logged w [cfg; EvLuigiBuild t])
        end
    end.
Proof.
  intros cfg t. unfold _compute_table_3d.
  unfold mbind at 1, M_bind at 1. rewrite run_call. fold cfg.
  destruct (write_global_config env _) as [e|u]; [done|].
  unfold mbind at 1, M_bind at 1. rewrite _table_impl_run, logged_logged.
  fold t. simpl.
  destruct (luigi_build env t) as [e|[|]]; [done| |done].
  destruct correct_anchors; reflexivity.
Qed.

(** The events of the extraction step are calls to the config writer and to
    the workflow, never a write of the output. *)
Lemma extract_table_events env seg_path seg_key resolution tmp_folder target
    max_jobs correct_anchors ndim w r w' :
  extract_table env seg_path seg_key resolution tmp_folder target max_jobs
                correct_anchors ndim w = (r, w') →
  let cfg := EvWriteGlobalConfig (os_path_join tmp_folder "configs") in
  let t := workflow_task seg_path seg_key tmp_folder target max_jobs in
  log w' = log w
  ∨ log w' = log w ++ [cfg]
  ∨ log w' = log w ++ [cfg; EvLuigiBuild t].
Proof.
  intros H cfg t. unfold extract_table in H.
  destruct (ndim =? 2)%nat.
  - left. by eapply quiet__compute_table_2d.
  - rewrite _compute_table_3d_run in H. fold cfg t in H.
    destruct (write_global_config env _) as [e|u].
    { right; left. by inversion H. }
    right; right.
    destruct (luigi_build env t) as [e|[|]]; [by inversion H| |by inversion H].
    destruct correct_anchors; [by inversion H|].
    by apply quiet__n5_to_pandas in H.
Qed.

(** ** Tables: columns and row filters *)

Lemma mask_filter_fmap {A B} (g : A → bool) (h : A → B) (l : list A) :
  mask_filter (g <$> l) (h <$> l) = h <$> filter (λ x, g x = true) l.
Proof.
  induction l as [|x l IH]; [done|]. simpl.
  rewrite filter_cons. destruct (decide (g x = true)) as [Hg|Hg].
  - rewrite Hg. simpl. by f_equal.
  - apply not_true_is_false in Hg. by rewrite Hg.
Qed.

Lemma mask_filter_rows {A} (g : A → bool) (l : list A) :
  mask_filter (g <$> l) l = filter (λ x, g x = true) l.
Proof.
  rewrite <-(list_fmap_id l) at 2. rewrite mask_filter_fmap.
  apply list_fmap_id.
Qed.

Lemma pd_DataFrame_columns data cols df :
  pd_DataFrame data cols = inr df → columns df = cols.
Proof.
  unfold pd_DataFrame. destruct data as [xs|a]; [done|].
  destruct (_ =? _)%nat; [|done]. by intros [= <-].
Qed.

Lemma remove_background_label_row_columns table table' :
  remove_background_label_row table = inr table' →
  columns table' = columns table.
Proof.
  unfold remove_background_label_row.
  destruct (df_column _ table); [done|]. by intros [= <-].
Qed.

Lemma _remove_empty_columns_columns table table' :
  _remove_empty_columns table = inr table' →
  columns table' = columns table.
Proof.
  unfold _remove_empty_columns.
  destruct (df_column _ table); [done|]. by intros [= <-].
Qed.

(** Dropping the rows whose entry in column [i] is zero. *)
Lemma drop_zero_rows name i table :
  list_find (λ c, c = name) (columns table) = Some (i, name) →
  match df_column name table with
  | inr col =>
      inr (df_getitem_mask ((λ x, num_ne x num_zero) <$> col) table)
  | inl e => inl e
  end
  = inr (mk_df (columns table)
               (filter (λ r, num_ne (get r.2 i) num_zero = true)
                       (df_rows table))).
Proof.
  intros Hf. unfold df_column. rewrite Hf. unfold df_getitem_mask.
  do 2 f_equal. rewrite <-list_fmap_compose.
  apply (mask_filter_rows (λ r, num_ne (get r.2 i) num_zero)).
Qed.

Lemma num_ne_zero x : num_ne x num_zero = true ↔ x ≠ num_zero.
Proof.
  destruct x as [|q]; simpl; [done|].
  rewrite negb_true_iff, bool_decide_eq_false. unfold num_zero, num_of_Z.
  split; [intros H [= ?]; by apply H | intros H ?; apply H; by f_equal].
Qed.

Lemma list_find_n_pixels_2d :
  list_find (λ c, c = "n_pixels") col_names_2d = Some (7%nat, "n_pixels").
Proof. reflexivity. Qed.

Lemma list_find_n_pixels_3d :
  list_find (λ c, c = "n_pixels") col_names_3d = Some (10%nat, "n_pixels").
Proof. reflexivity. Qed.

Lemma list_find_label_id_2d :
  list_find (λ c, c = "label_id") col_names_2d = Some (0%nat, "label_id").
Proof. reflexivity. Qed.

Lemma list_find_label_id_3d :
  list_find (λ c, c = "label_id") col_names_3d = Some (0%nat, "label_id").
Proof. reflexivity. Qed.

(** ** The columns of the two extractors *)

Lemma _compute_table_2d_columns env seg_path seg_key resolution w df w' :
  _compute_table_2d env seg_path seg_key resolution w = (inr df, w') →
  columns df = col_names_2d.
Proof.
  unfold _compute_table_2d. intros H.
  apply run_bind_returns in H as (seg & w1 & _ & H).
  apply run_bind_returns in H as (u1 & w2 & _ & H).
  apply run_bind_returns in H as (centers & w3 & _ & H).
  apply run_bind_returns in H as (props & w4 & _ & H).
  apply run_bind_returns in H as (rws & w5 & _ & H).
  apply run_bind_returns in H as (tab & w6 & _ & H).
  apply run_bind_returns in H as (n & w7 & _ & H).
  apply run_bind_returns in H as (u2 & w8 & _ & H).
  unfold lift in H. injection H as H _.
  by apply (pd_DataFrame_columns tab col_names_2d) in H.
Qed.

Lemma _n5_to_pandas_columns env input_path input_key resolution anchors
    w df w' :
  _n5_to_pandas env input_path input_key resolution anchors w = (inr df, w') →
  columns df = col_names_3d.
Proof.
  unfold _n5_to_pandas. intros H.
  apply run_bind_returns in H as (a & w1 & _ & H).
  apply run_bind_returns in H as (attributes & w2 & _ & H).
  apply run_bind_returns in H as (anchors' & w3 & _ & H).
  apply run_bind_returns in H as (minc & w4 & _ & H).
  apply run_bind_returns in H as (maxc & w5 & _ & H).
  apply run_bind_returns in H as (parts & w6 & _ & H).
  apply run_bind_returns in H as (data & w7 & _ & H).
  apply run_bind_returns in H as (df0 & w8 & Hdf & H).
  unfold lift in H, Hdf. injection H as H _. injection Hdf as Hdf _.
  apply (pd_DataFrame_columns (Arr2 data) col_names_3d) in Hdf.
  apply remove_background_label_row_columns in H. congruence.
Qed.

Lemma _compute_table_3d_columns env seg_path seg_key resolution
    correct_anchors tmp_folder target max_jobs w df w' :
  _compute_table_3d env seg_path seg_key resolution correct_anchors
                    tmp_folder target max_jobs w = (inr df, w') →
  columns df = col_names_3d.
Proof.
  rewrite _compute_table_3d_run. cbv zeta.
  destruct (write_global_config env _); [done|].
  destruct (luigi_build env _) as [e|[|]]; [done| |done].
  destruct correct_anchors; [done|].
  apply _n5_to_pandas_columns.
Qed.

Lemma extract_table_columns env seg_path seg_key resolution tmp_folder target
    max_jobs correct_anchors ndim w df w' :
  extract_table env seg_path seg_key resolution tmp_folder target max_jobs
                correct_anchors ndim w = (inr df, w') →
  columns df = if (ndim =? 2)%nat then col_names_2d else col_names_3d.
Proof.
  unfold extract_table. destruct (ndim =? 2)%nat.
  - apply _compute_table_2d_columns.
  - apply _compute_table_3d_columns.
Qed.

(** ** compute_default_table, step by step *)

Lemma compute_default_table_run env seg_path seg_key table_path resolution
    tmp_folder target max_jobs correct_anchors w :
  compute_default_table env seg_path seg_key table_path resolution
                        tmp_folder target max_jobs correct_anchors w
  = match open_file_ndim env seg_path seg_key with
    | inl e => (inl e, w)
    | inr ndim =>
        match extract_table env seg_path seg_key resolution tmp_folder
                            target max_jobs correct_anchors ndim w with
        | (inl e, w1) => (inl e, w1)
        | (inr table, w1) =>
            match _remove_empty_columns table with
            | inl e => (inl e, w1)
            | inr table' =>
                let table_folder := (os_path_split table_path).1 in
                match os_makedirs env table_folder true with
                | inl e => (inl e, logged w1 [EvMakedirs table_folder true])
                | inr _ =>
                    (write_text env table_path
                       (to_csv_text (float_repr env) table' tab_char false
                                    "nan"),
                     logged w1 [EvMakedirs table_folder true;
                                EvToCsv table' table_path tab_char false
                                        "nan"])
                end
            end
        end
    end.
Proof.
  unfold compute_default_table, extract_table.
  unfold mbind at 1, M_bind at 1, lift at 1.
  destruct (open_file_ndim env seg_path seg_key) as [e|ndim]; [done|].
  unfold mbind at 1, M_bind at 1.
  destruct (if (ndim =? 2)%nat then _ else _) as [[e|table] w1]; [done|].
  unfold mbind at 1, M_bind at 1, lift at 1.
  destruct (_remove_empty_columns table) as [e|table']; [done|].
  unfold mbind at 1, M_bind at 1. rewrite run_call.
  destruct (os_makedirs env _ true) as [e|u]; [done|].
  unfold to_csv. by rewrite run_call, logged_logged.
Qed.

Lemma new_events_refl w : new_events w w = [].
Proof. unfold new_events. by rewrite drop_all. Qed.

Lemma new_events_logged_app w w1 pre evs :
  log w1 = log w ++ pre → new_events w (logged w1 evs) = pre ++ evs.
Proof.
  intros H. unfold new_events, logged; simpl.
  by rewrite H, <-app_assoc, drop_app_length.
Qed.

Lemma new_events_quiet w w1 evs :
  log w1 = log w → new_events w (logged w1 evs) = evs.
Proof.
  intros H. apply (new_events_logged_app w w1 []). by rewrite app_nil_r.
Qed.

(** Membership of an event in an explicit list of events. *)
Ltac event_cases H :=
  repeat (apply elem_of_cons in H as [H|H]; [try discriminate H|]);
  try (by apply elem_of_nil in H).

(** The 2D extractor makes no call that is logged; what follows it are the
    two output writes. *)
Lemma compute_default_table_2d_events env seg_path seg_key table_path
    resolution tmp_folder target max_jobs correct_anchors w ev :
  open_file_ndim env seg_path seg_key = inr 2%nat →
  ev ∈ new_events w
         (compute_default_table env seg_path seg_key table_path resolution
            tmp_folder target max_jobs correct_anchors w).2 →
  is_output_write ev = true.
Proof.
  intros Hnd. rewrite compute_default_table_run, Hnd.
  unfold extract_table; simpl.
  destruct (_compute_table_2d _ _ _ _ w) as [[e|table] w1] eqn:H2d;
    apply quiet__compute_table_2d in H2d; simpl.
  { rewrite (new_events_app w w1 []) by (by rewrite app_nil_r).
    intros H. by apply elem_of_nil in H. }
  destruct (_remove_empty_columns table) as [e|table']; simpl.
  { rewrite (new_events_app w w1 []) by (by rewrite app_nil_r).
    intros H. by apply elem_of_nil in H. }
  destruct (os_makedirs env _ true) as [e|u]; simpl;
    rewrite new_events_quiet by done; intros H;
    repeat (apply elem_of_cons in H as [->|H]; [done|]);
    by apply elem_of_nil in H.
Qed.

(** Whenever a run of [compute_default_table] invokes the workflow, it is
    on the 3D path, after the config has been written, and with the task
    of [_table_impl]. *)
Lemma workflow_event env seg_path seg_key table_path resolution tmp_folder
    target max_jobs correct_anchors w t :
  EvLuigiBuild t ∈ new_events w
    (compute_default_table env seg_path seg_key table_path resolution
       tmp_folder target max_jobs correct_anchors w).2 →
  t = workflow_task seg_path seg_key tmp_folder target max_jobs
  ∧ (∃ ndim, open_file_ndim env seg_path seg_key = inr ndim
             ∧ (ndim =? 2)%nat = false)
  ∧ (∃ u, write_global_config env (os_path_join tmp_folder "configs")
          = inr u).
Proof.
  intros Hin.
  destruct (open_file_ndim env seg_path seg_key) as [e|ndim] eqn:Hnd.
  { rewrite compute_default_table_run, Hnd in Hin. simpl in Hin.
    rewrite new_events_refl in Hin. by apply elem_of_nil in Hin. }
  destruct (ndim =? 2)%nat eqn:H2.
  { apply Nat.eqb_eq in H2 as ->.
    by apply compute_default_table_2d_events in Hin. }
  rewrite compute_default_table_run, Hnd in Hin.
  unfold extract_table in Hin. rewrite H2, _compute_table_3d_run in Hin.
  cbv zeta in Hin.
  destruct (write_global_config env _) as [e|u] eqn:Hcfg.
  { simpl in Hin. rewrite new_events_logged in Hin. event_cases Hin. }
  split; [|split; [by exists ndim | by exists u]].
  set (t0 := workflow_task _ _ _ _ _) in *.
  assert (∀ w1 (r : exn + unit) post,
    log w1 = log w ++ [EvWriteGlobalConfig (os_path_join tmp_folder "configs");
                       EvLuigiBuild t0] →
    Forall (λ ev, is_output_write ev = true) post →
    EvLuigiBuild t ∈ new_events w (r, logged w1 post).2 → t = t0) as Hpost.
  { intros w1 r post Hl Hp. simpl.
    rewrite (new_events_logged_app _ _ _ _ Hl). intros H.
    apply elem_of_app in H as [H|H].
    - event_cases H. by injection H.
    - eapply Forall_forall in Hp; [|exact H]. done. }
  assert (∀ w1 (r : exn + unit),
    log w1 = log w ++ [EvWriteGlobalConfig (os_path_join tmp_folder "configs");
                       EvLuigiBuild t0] →
    EvLuigiBuild t ∈ new_events w (r, w1).2 → t = t0) as Hpre.
  { intros w1 r Hl. simpl. rewrite (new_events_app _ _ _ Hl). intros H.
    event_cases H. by injection H. }
  destruct (luigi_build env t0) as [e|[|]];
    [ | destruct correct_anchors | ];
    try (by eapply Hpre; [|exact Hin]).
  destruct (_n5_to_pandas _ _ _ _ _ _) as [[e|table] w1] eqn:Hn5;
    apply quiet__n5_to_pandas in Hn5; simpl in Hn5.
  { by eapply Hpre; [|exact Hin]. }
  destruct (_remove_empty_columns table) as [e|table'].
  { by eapply Hpre; [|exact Hin]. }
  cbv zeta in Hin.
  destruct (os_makedirs env _ true) as [e|u'];
    (eapply Hpost; [exact Hn5| |exact Hin]); by repeat constructor.
Qed.

(** ** Anchor correction and workflow failure *)

(** C4 (amended): a 3D extraction invoked with [correct_anchors=True]
    always fails, and it never reaches the output: no array is loaded, no
    folder is made and no table is written.  The request is looked at only
    after the config has been written and the workflow has run: the error
    is the explicit "not implemented" one when both succeed, and the
    runtime error of the workflow when the workflow reports failure. *)
Theorem correct_anchors_not_implemented env seg_path seg_key table_path
    resolution tmp_folder target max_jobs w ndim :
  open_file_ndim env seg_path seg_key = inr ndim →
  ndim ≠ 2%nat →
  let run := compute_default_table env seg_path seg_key table_path
               resolution tmp_folder target max_jobs true w in
  let cfg := os_path_join tmp_folder "configs" in
  let t := workflow_task seg_path seg_key tmp_folder target max_jobs in
  (∃ e, run.1 = inl e)
  ∧ store run.2 = store w
  ∧ Forall (λ ev, is_output_write ev = false) (new_events w run.2)
  ∧ (write_global_config env cfg = inr tt →
     luigi_build env t = inr true →
     run.1 = inl (NotImplementedError
                    "Anchor correction is not implemented yet")
     ∧ new_events w run.2 = [EvWriteGlobalConfig cfg; EvLuigiBuild t])
  ∧ (write_global_config env cfg = inr tt →
     luigi_build env t = inr false →
     run.1 = inl (RuntimeError "Attribute workflow failed")).
Proof.
  intros Hnd H2 run cfg t. subst run.
  apply Nat.eqb_neq in H2.
  rewrite compute_default_table_run, Hnd. unfold extract_table.
  rewrite H2, _compute_table_3d_run. cbv zeta. fold cfg t.
  destruct (write_global_config env cfg) as [e|[]]; simpl.
  { rewrite new_events_logged.
    repeat split; [by eexists | by repeat constructor | done..]. }
  destruct (luigi_build env t) as [e|[|]]; simpl; rewrite new_events_logged;
    (repeat split; [by eexists | by repeat constructor | done..]).
Qed.

Lemma correct_anchors_not_implemented_witness :
  (sample_run 3 true [frac 1 1; frac 1 1; frac 1 1] 8 true).1
  = inl (NotImplementedError "Anchor correction is not implemented yet").
Proof.
  destruct (correct_anchors_not_implemented (sample_env 3 true)
              "seg.n5" "seg" "out/tables/default.tsv"
              [frac 1 1; frac 1 1; frac 1 1] "tmp" "local" 8 empty_world 3)
    as (_ & _ & _ & H & _).
  - reflexivity.
  - lia.
  - apply H; reflexivity.
Defined.

(** C4, as stated, fails when the workflow does: the call with
    [correct_anchors=True] then ends in the runtime error of [_table_impl],
    not in the "not implemented" error. *)
Lemma correct_anchors_workflow_failure :
  (sample_run 3 false [frac 1 1; frac 1 1; frac 1 1] 8 true).1
  = inl (RuntimeError "Attribute workflow failed")
  ∧ is_not_implemented
      (sample_run 3 false [frac 1 1; frac 1 1; frac 1 1] 8 true).1 = false.
Proof. split; reflexivity. Qed.

(** C5: whenever the morphology workflow is invoked and returns a
    non-success status, [compute_default_table] ends in the runtime error
    "Attribute workflow failed", with no array loaded and no output write
    made: neither the destination folder nor the table. *)
Theorem workflow_failure_aborts env seg_path seg_key table_path resolution
    tmp_folder target max_jobs correct_anchors w t :
  let run := compute_default_table env seg_path seg_key table_path
               resolution tmp_folder target max_jobs correct_anchors w in
  EvLuigiBuild t ∈ new_events w run.2 →
  luigi_build env t = inr false →
  run.1 = inl (RuntimeError "Attribute workflow failed")
  ∧ Forall (λ ev, is_output_write ev = false) (new_events w run.2)
  ∧ store run.2 = store w.
Proof.
  intros run Hin Hfail. subst run.
  apply workflow_event in Hin as (-> & (ndim & Hnd & H2) & (u & Hcfg)).
  rewrite compute_default_table_run, Hnd. unfold extract_table.
  rewrite H2, _compute_table_3d_run. cbv zeta.
  rewrite Hcfg, Hfail. simpl. rewrite new_events_logged.
  repeat split. by repeat constructor.
Qed.

Lemma workflow_failure_aborts_witness :
  (sample_run 3 false [frac 1 1; frac 1 1; frac 1 1] 8 false).1
  = inl (RuntimeError "Attribute workflow failed")
  ∧ Forall (λ ev, is_output_write ev = false)
           (new_events empty_world
              (sample_run 3 false [frac 1 1; frac 1 1; frac 1 1] 8 false).2)
  ∧ store (sample_run 3 false [frac 1 1; frac 1 1; frac 1 1] 8 false).2
    = store empty_world.
Proof.
  apply (workflow_failure_aborts (sample_env 3 false) "seg.n5" "seg"
           "out/tables/default.tsv" [frac 1 1; frac 1 1; frac 1 1]
           "tmp" "local" 8 false empty_world
           (workflow_task "seg.n5" "seg" "tmp" "local" 8)).
  - vm_compute. apply list_elem_of_further, list_elem_of_here.
  - reflexivity.
Defined.

(** ** The parallelism of the merge step *)

(** C10: [_table_impl] always invokes the workflow, exactly once, with
    [max_jobs_merge = min(32, max_jobs)]; and every invocation of the
    workflow that [compute_default_table] makes is this one.  Hence the
    merge parallelism never exceeds 32 and equals [max_jobs] whenever that
    is at most 32. *)
Theorem max_jobs_merge_capped env seg_path seg_key table_path resolution
    tmp_folder target max_jobs correct_anchors w :
  (∃ t, new_events w (_table_impl env seg_path seg_key tmp_folder target
                                  max_jobs w).2 = [EvLuigiBuild t]
        ∧ task_max_jobs t = max_jobs
        ∧ task_max_jobs_merge t = Z.min 32 max_jobs)
  ∧ (∀ t, EvLuigiBuild t ∈ new_events w
            (compute_default_table env seg_path seg_key table_path
               resolution tmp_folder target max_jobs correct_anchors w).2 →
          task_max_jobs_merge t = Z.min 32 max_jobs
          ∧ (task_max_jobs_merge t ≤ 32)%Z
          ∧ ((max_jobs ≤ 32)%Z → task_max_jobs_merge t = max_jobs)).
Proof.
  split.
  - exists (workflow_task seg_path seg_key tmp_folder target max_jobs).
    rewrite _table_impl_run. simpl. by rewrite new_events_logged.
  - intros t Hin. apply workflow_event in Hin as (-> & _). simpl.
    repeat split; lia.
Qed.

Lemma max_jobs_merge_capped_witness :
  task_max_jobs_merge (workflow_task "seg.n5" "seg" "tmp" "local" 64) = 32%Z
  ∧ task_max_jobs_merge (workflow_task "seg.n5" "seg" "tmp" "local" 8) = 8%Z.
Proof.
  split.
  - destruct (max_jobs_merge_capped (sample_env 3 true) "seg.n5" "seg"
                "out/tables/default.tsv" [frac 1 1; frac 1 1; frac 1 1]
                "tmp" "local" 64 false empty_world) as [_ H].
    destruct (H (workflow_task "seg.n5" "seg" "tmp" "local" 64)) as (H1 & _).
    + vm_compute. apply list_elem_of_further, list_elem_of_here.
    + exact H1.
  - destruct (max_jobs_merge_capped (sample_env 3 true) "seg.n5" "seg"
                "out/tables/default.tsv" [frac 1 1; frac 1 1; frac 1 1]
                "tmp" "local" 8 false empty_world) as [_ H].
    destruct (H (workflow_task "seg.n5" "seg" "tmp" "local" 8)) as (_ & _ & H3).
    + vm_compute. apply list_elem_of_further, list_elem_of_here.
    + apply H3. lia.
Defined.

(** ** The table that is written *)

(** The only table [compute_default_table] ever writes is what the
    extraction step has returned, without its zero-sized rows; it is written
    to [table_path], tab-separated, without the index and with "nan" for
    missing values, after the folder of [table_path] has been made. *)
Lemma written_table env seg_path seg_key table_path resolution tmp_folder
    target max_jobs correct_anchors w table path sep index na_rep :
  EvToCsv table path sep index na_rep ∈ new_events w
    (compute_default_table env seg_path seg_key table_path resolution
       tmp_folder target max_jobs correct_anchors w).2 →
  ∃ ndim table0 w1,
    open_file_ndim env seg_path seg_key = inr ndim
    ∧ extract_table env seg_path seg_key resolution tmp_folder target
                    max_jobs correct_anchors ndim w = (inr table0, w1)
    ∧ _remove_empty_columns table0 = inr table
    ∧ path = table_path ∧ sep = tab_char ∧ index = false ∧ na_rep = "nan".
Proof.
  rewrite compute_default_table_run.
  destruct (open_file_ndim env seg_path seg_key) as [e|ndim] eqn:Hnd.
  { simpl. rewrite new_events_refl. intros H. by apply elem_of_nil in H. }
  destruct (extract_table _ _ _ _ _ _ _ _ _ w) as [[e|table0] w1] eqn:Hex;
    pose proof (extract_table_events _ _ _ _ _ _ _ _ _ _ _ _ Hex) as Hlog;
    cbv zeta in Hlog.
  { simpl. destruct Hlog as [Hl|[Hl|Hl]].
    - rewrite (new_events_app w w1 []) by (by rewrite app_nil_r).
      intros H. by apply elem_of_nil in H.
    - rewrite (new_events_app _ _ _ Hl). intros H. event_cases H.
    - rewrite (new_events_app _ _ _ Hl). intros H. event_cases H. }
  assert (∃ pre, log w1 = log w ++ pre
                 ∧ Forall (λ ev, is_output_write ev = false) pre)
    as (pre & Hl & Hpre).
  { destruct Hlog as [Hl|[Hl|Hl]].
    - exists []. by rewrite app_nil_r.
    - eexists. split; [exact Hl | by repeat constructor].
    - eexists. split; [exact Hl | by repeat constructor]. }
  assert (EvToCsv table path sep index na_rep ∉ pre) as Hnot.
  { intros H. eapply Forall_forall in Hpre; [|exact H]. done. }
  destruct (_remove_empty_columns table0) as [e|table'] eqn:Hrm.
  { simpl. by rewrite (new_events_app _ _ _ Hl). }
  cbv zeta. destruct (os_makedirs env _ true) as [e|u]; simpl;
    rewrite (new_events_logged_app _ _ _ _ Hl); intros H;
    apply elem_of_app in H as [H|H]; try done; event_cases H.
  injection H as -> -> -> -> ->. by exists ndim, table0, w1.
Qed.

(** C1: the column names and their order are fixed per path.  Whatever the
    input, a table returned by the 2D extractor has exactly the columns
    label_id, anchor_y, anchor_x, bb_min_y, bb_min_x, bb_max_y, bb_max_x,
    n_pixels; a table returned by the 3D extractor (and by [_n5_to_pandas],
    with or without supplied anchors) has exactly the columns label_id,
    anchor_x, anchor_y, anchor_z, bb_min_x, bb_min_y, bb_min_z, bb_max_x,
    bb_max_y, bb_max_z, n_pixels; and the table [compute_default_table]
    writes has the columns of its path. *)
Theorem output_columns env seg_path seg_key resolution :
  (∀ w df w',
     _compute_table_2d env seg_path seg_key resolution w = (inr df, w') →
     columns df = ["label_id"; "anchor_y"; "anchor_x";
                   "bb_min_y"; "bb_min_x"; "bb_max_y"; "bb_max_x";
                   "n_pixels"])
  ∧ (∀ anchors w df w',
       _n5_to_pandas env seg_path seg_key resolution anchors w
       = (inr df, w') →
       columns df = ["label_id"; "anchor_x"; "anchor_y"; "anchor_z";
                     "bb_min_x"; "bb_min_y"; "bb_min_z";
                     "bb_max_x"; "bb_max_y"; "bb_max_z"; "n_pixels"])
  ∧ (∀ correct_anchors tmp_folder target max_jobs w df w',
       _compute_table_3d env seg_path seg_key resolution correct_anchors
                         tmp_folder target max_jobs w = (inr df, w') →
       columns df = ["label_id"; "anchor_x"; "anchor_y"; "anchor_z";
                     "bb_min_x"; "bb_min_y"; "bb_min_z";
                     "bb_max_x"; "bb_max_y"; "bb_max_z"; "n_pixels"])
  ∧ (∀ table_path tmp_folder target max_jobs correct_anchors w ndim
       table path sep index na_rep,
       open_file_ndim env seg_path seg_key = inr ndim →
       EvToCsv table path sep index na_rep ∈ new_events w
         (compute_default_table env seg_path seg_key table_path resolution
            tmp_folder target max_jobs correct_anchors w).2 →
       columns table
       = if (ndim =? 2)%nat
         then ["label_id"; "anchor_y"; "anchor_x";
               "bb_min_y"; "bb_min_x"; "bb_max_y"; "bb_max_x"; "n_pixels"]
         else ["label_id"; "anchor_x"; "anchor_y"; "anchor_z";
               "bb_min_x"; "bb_min_y"; "bb_min_z";
               "bb_max_x"; "bb_max_y"; "bb_max_z"; "n_pixels"]).
Proof.
  repeat split.
  - intros w df w'. apply _compute_table_2d_columns.
  - intros anchors w df w'. apply _n5_to_pandas_columns.
  - intros correct_anchors tmp_folder target max_jobs w df w'.
    apply _compute_table_3d_columns.
  - intros table_path tmp_folder target max_jobs correct_anchors w ndim
      table path sep index na_rep Hnd Hin.
    apply written_table in Hin
      as (ndim' & table0 & w1 & Hnd' & Hex & Hrm & _).
    assert (ndim' = ndim) as -> by congruence.
    apply _remove_empty_columns_columns in Hrm.
    apply extract_table_columns in Hex. by rewrite Hrm, Hex.
Qed.

Lemma output_columns_witness :
  columns (returned empty_table
             (_compute_table_2d (sample_env 2 true) "seg.n5" "seg"
                                [frac 1 1; frac 2 1] empty_world))
  = ["label_id"; "anchor_y"; "anchor_x";
     "bb_min_y"; "bb_min_x"; "bb_max_y"; "bb_max_x"; "n_pixels"]
  ∧ columns (returned empty_table
               (_compute_table_3d (sample_env 3 true) "seg.n5" "seg"
                                  [frac 1 1; frac 2 1; frac 3 1] false
                                  "tmp" "local" 8 empty_world))
    = ["label_id"; "anchor_x"; "anchor_y"; "anchor_z";
       "bb_min_x"; "bb_min_y"; "bb_min_z";
       "bb_max_x"; "bb_max_y"; "bb_max_z"; "n_pixels"].
Proof.
  split.
  - destruct (output_columns (sample_env 2 true) "seg.n5" "seg"
                [frac 1 1; frac 2 1]) as (H & _).
    eapply (H empty_world _ empty_world). vm_compute. reflexivity.
  - destruct (output_columns (sample_env 3 true) "seg.n5" "seg"
                [frac 1 1; frac 2 1; frac 3 1]) as (_ & _ & H & _).
    eapply (H false "tmp" "local" 8%Z empty_world _
              (_compute_table_3d (sample_env 3 true) "seg.n5" "seg"
                 [frac 1 1; frac 2 1; frac 3 1] false
                 "tmp" "local" 8 empty_world).2).
    vm_compute. reflexivity.
Defined.

Lemma extract_table_n_pixels env seg_path seg_key resolution tmp_folder
    target max_jobs correct_anchors ndim w table w1 :
  extract_table env seg_path seg_key resolution tmp_folder target max_jobs
                correct_anchors ndim w = (inr table, w1) →
  ∃ i, list_find (λ c, c = "n_pixels") (columns table) = Some (i, "n_pixels").
Proof.
  intros H. apply extract_table_columns in H. rewrite H.
  destruct (ndim =? 2)%nat; eexists; reflexivity.
Qed.

(** X20: the end of the pipeline, whatever [os.makedirs] answers.  For
    every table the extraction step returns, [compute_default_table]
    removes exactly the rows whose n_pixels is 0, keeping columns and
    order, and then calls [os.makedirs(folder, exist_ok=True)] on the
    folder part of [table_path].  If that call succeeds, the remaining
    rows are written to [table_path] after it: tab-delimited, header line
    first, no row-index column, NaN as "nan".  If it raises, the run ends
    in its error and nothing is written. *)
Theorem table_assembly_and_serialization env seg_path seg_key table_path
    resolution tmp_folder target max_jobs correct_anchors w ndim table w1 :
  open_file_ndim env seg_path seg_key = inr ndim →
  extract_table env seg_path seg_key resolution tmp_folder target max_jobs
                correct_anchors ndim w = (inr table, w1) →
  let run := compute_default_table env seg_path seg_key table_path
               resolution tmp_folder target max_jobs correct_anchors w in
  let folder := (os_path_split table_path).1 in
  ∃ i table',
    columns table !! i = Some "n_pixels"
    ∧ _remove_empty_columns table = inr table'
    ∧ columns table' = columns table
    ∧ df_rows table'
      = filter (λ r, get r.2 i ≠ num_zero) (df_rows table)
    ∧ to_csv_text (float_repr env) table' tab_char false "nan"
      = tsv_text (float_repr env) table'
    ∧ match os_makedirs env folder true with
      | inl e => run = (inl e, logged w1 [EvMakedirs folder true])
      | inr _ =>
          run = (write_text env table_path
                   (tsv_text (float_repr env) table'),
                 logged w1 [EvMakedirs folder true;
                            EvToCsv table' table_path tab_char false "nan"])
      end.
Proof.
  intros Hnd Hex run folder. subst run.
  destruct (extract_table_n_pixels _ _ _ _ _ _ _ _ _ _ _ _ Hex) as [i Hi].
  pose proof (drop_zero_rows "n_pixels" i table Hi) as Hrm.
  fold (_remove_empty_columns table) in Hrm.
  exists i, (mk_df (columns table)
               (filter (λ r, get r.2 i ≠ num_zero) (df_rows table))).
  assert (filter (λ r : nat * list num, num_ne (get r.2 i) num_zero = true)
                 (df_rows table)
          = filter (λ r, get r.2 i ≠ num_zero) (df_rows table)) as Hf.
  { apply list_filter_iff. intros r. apply num_ne_zero. }
  rewrite Hf in Hrm.
  split; [by apply list_find_Some in Hi as (? & _)|].
  split; [exact Hrm|]. split; [done|]. split; [done|]. split; [done|].
  rewrite compute_default_table_run, Hnd, Hex, Hrm. cbv zeta. fold folder.
  by destruct (os_makedirs env folder true).
Qed.

Lemma table_assembly_and_serialization_witness :
  ∃ table',
    _remove_empty_columns (returned empty_table sample_extract) = inr table'
    ∧ sample_run 3 true [frac 1 1; frac 2 1; frac 3 1] 8 false
      = (inr tt,
         logged sample_extract.2
           [EvMakedirs "out/tables" true;
            EvToCsv table' "out/tables/default.tsv" tab_char false "nan"]).
Proof.
  destruct (table_assembly_and_serialization (sample_env 3 true)
              "seg.n5" "seg" "out/tables/default.tsv"
              [frac 1 1; frac 2 1; frac 3 1] "tmp" "local" 8 false
              empty_world 3 (returned empty_table sample_extract)
              sample_extract.2)
    as (i & table' & _ & Hrm & _ & _ & _ & Hrun).
  - reflexivity.
  - vm_compute. reflexivity.
  - exists table'. split; [exact Hrm | exact Hrun].
Defined.

(** C9: a table path without a folder part is not written.  On a 3D
    segmentation whose workflow succeeds, [compute_default_table] called
    with [table_path = "default.tsv"] hands the empty string to
    [os.makedirs], which refuses it although the destination directory
    (the current one) exists: the run ends in that error after the whole
    extraction, and the table is not written.  The same call with
    "out/default.tsv" makes the folder and writes the table. *)
Theorem table_path_without_folder_not_written :
  let t := workflow_task "seg.n5" "seg" "tmp" "local" 8 in
  let run table_path :=
    compute_default_table sample_env_posix "seg.n5" "seg" table_path
      [frac 1 1; frac 2 1; frac 3 1] "tmp" "local" 8 false empty_world in
  (run "default.tsv").1 = inl (OSError "No such file or directory")
  ∧ new_events empty_world (run "default.tsv").2
    = [EvWriteGlobalConfig (task_config_dir t); EvLuigiBuild t;
       EvMakedirs EmptyString true]
  ∧ (run "out/default.tsv").1 = inr tt
  ∧ ∃ table,
      new_events empty_world (run "out/default.tsv").2
      = [EvWriteGlobalConfig (task_config_dir t); EvLuigiBuild t;
         EvMakedirs "out" true;
         EvToCsv table "out/default.tsv" tab_char false "nan"].
Proof.
  intros t run. subst t run. cbv beta.
  split; [by vm_compute|]. split; [by vm_compute|]. split; [by vm_compute|].
  eexists. vm_compute. reflexivity.
Qed.

(** ** Labels and sizes in the final table *)

Lemma num_of_nat_inj : Inj (=) (=) num_of_nat.
Proof.
  intros m n H. unfold num_of_nat, num_of_Z in H. injection H as H.
  apply Qred_eq_iff in H. unfold Qeq in H. simpl in H. lia.
Qed.

Lemma column_at_filter_NoDup i (P : nat * list num → Prop)
    `{∀ r, Decision (P r)} rws :
  NoDup (column_at i rws) → NoDup (column_at i (filter P rws)).
Proof.
  intros Hnd. eapply sublist_NoDup; [exact Hnd|].
  unfold column_at. apply fmap_sublist, sublist_filter.
Qed.

Lemma column_at_filter_Forall i (Q : num → Prop)
    (P : nat * list num → Prop) `{∀ r, Decision (P r)} rws :
  Forall Q (column_at i rws) → Forall Q (column_at i (filter P rws)).
Proof.
  intros HQ. apply Forall_forall. intros x Hx.
  eapply Forall_forall; [exact HQ|].
  eapply elem_of_sublist; [exact Hx|].
  unfold column_at. apply fmap_sublist, sublist_filter.
Qed.

Lemma column_at_nonzero i rws :
  Forall (λ x, x ≠ num_zero)
    (column_at i (filter (λ r, num_ne (get r.2 i) num_zero = true) rws)).
Proof.
  unfold column_at. apply Forall_fmap, Forall_forall. intros r Hr.
  apply list_elem_of_filter in Hr as [Hr _]. simpl. by apply num_ne_zero.
Qed.

Lemma column_at_imap i (rws : list (list num)) :
  column_at i (imap (λ j r, (j, r)) rws) = (λ r, get r i) <$> rws.
Proof.
  unfold column_at. rewrite fmap_imap. apply (imap_const (λ r, get r i)).
Qed.

Lemma df_column_at name i table :
  list_find (λ c, c = name) (columns table) = Some (i, name) →
  df_column name table = inr (column_at i (df_rows table)).
Proof. intros H. unfold df_column. by rewrite H. Qed.

(** The rows the 2D extractor builds start with the labels of the
    regions. *)
Lemma mapM_row_labels {A} (centers : list A) (rest : RegionProperties → A → list num)
    props w rws w' :
  mapM (λ p, ce ← lift (list_getitem centers (label p));
             mret ([num_of_nat (label p)] ++ rest p ce)) props w
  = (inr rws, w') →
  (λ r, get r 0) <$> rws = (λ p, num_of_nat (label p)) <$> props.
Proof.
  revert w rws. induction props as [|p props IH]; intros w rws H; simpl in H.
  - rewrite run_mret in H. by simplify_eq.
  - apply run_bind_returns in H as (row & w1 & Hrow & H).
    apply run_bind_returns in H as (rws' & w2 & Hrws & H).
    rewrite run_mret in H. simplify_eq. simpl.
    f_equal; [|by eapply IH].
    apply run_bind_returns in Hrow as (ce & w3 & _ & Hrow).
    rewrite run_mret in Hrow. by simplify_eq.
Qed.

Lemma np_array_shape rws tab n :
  np_array rws = inr tab → list_getitem (shape tab) 1 = inr n →
  ∃ m, tab = Arr2 (mk_ndarray m rws).
Proof.
  unfold np_array. destruct rws as [|r rest].
  - intros [= <-]. done.
  - destruct (forallb _ rest); [|done]. intros [= <-] _. by eexists.
Qed.

(** A table returned by the 2D extractor has one row per region that
    [regionprops] reports, labelled with the label of the region. *)
Lemma _compute_table_2d_labels env seg_path seg_key resolution w df w' :
  _compute_table_2d env seg_path seg_key resolution w = (inr df, w') →
  ∃ seg props,
    regionprops env seg = inr props
    ∧ column_at 0 (df_rows df) = (λ p, num_of_nat (label p)) <$> props.
Proof.
  unfold _compute_table_2d. intros H.
  apply run_bind_returns in H as (seg & w1 & _ & H).
  apply run_bind_returns in H as (u1 & w2 & _ & H).
  apply run_bind_returns in H as (centers & w3 & _ & H).
  apply run_bind_returns in H as (props & w4 & Hprops & H).
  apply run_bind_returns in H as (rws & w5 & Hrws & H).
  apply run_bind_returns in H as (tab & w6 & Htab & H).
  apply run_bind_returns in H as (n & w7 & Hn & H).
  apply run_bind_returns in H as (u2 & w8 & _ & H).
  unfold lift in *. injection Hprops as Hprops _. injection Htab as Htab _.
  injection Hn as Hn _. injection H as H _.
  exists seg, props. split; [done|].
  destruct (np_array_shape _ _ _ Htab Hn) as [m ->].
  unfold pd_DataFrame in H; simpl in H.
  destruct (m =? 8)%nat; [|done]. injection H as <-. simpl.
  rewrite column_at_imap.
  exact (mapM_row_labels _ (λ p ce, _) _ _ _ _ Hrws).
Qed.

(** The 3D extractor, run to the end: the attribute array is read, scaled
    and assembled, and the background row is dropped. *)
Lemma _compute_table_3d_returns env seg_path seg_key resolution
    correct_anchors tmp_folder target max_jobs w df w' :
  _compute_table_3d env seg_path seg_key resolution correct_anchors
                    tmp_folder target max_jobs w = (inr df, w') →
  ∃ a ra rb rc tl,
    open_file_array env (os_path_join tmp_folder "data.n5") "attributes"
    = inr a
    ∧ (11 ≤ ncols a)%nat
    ∧ reverse resolution = ra :: rb :: rc :: tl
    ∧ correct_anchors = false
    ∧ df = mk_df col_names_3d
             (filter (λ r, num_ne (get r.2 0) num_zero = true)
                     (df_rows (table_3d ra rb rc a))).
Proof.
  rewrite _compute_table_3d_run. cbv zeta.
  destruct (write_global_config env _); [done|].
  destruct (luigi_build env _) as [e|[|]]; [done| |done].
  destruct correct_anchors; [done|]. intros H.
  destruct (_n5_to_pandas_returns _ _ _ _ _ _ _ H)
    as (a & ra & rb & rc & tl & Ha & Hn & Hres).
  rewrite (_n5_to_pandas_run _ _ _ _ _ _ _ _ _ _ Ha Hn Hres) in H.
  exists a, ra, rb, rc, tl. repeat split; try done.
  assert (remove_background_label_row (table_3d ra rb rc a)
          = inr (mk_df col_names_3d
                   (filter (λ r, num_ne (get r.2 0) num_zero = true)
                           (df_rows (table_3d ra rb rc a))))) as Hrb
    by (by apply (drop_zero_rows "label_id" 0 (table_3d ra rb rc a))).
  rewrite Hrb in H. by simplify_eq.
Qed.

Lemma table_3d_labels ra rb rc a :
  column_at 0 (df_rows (table_3d ra rb rc a)) = (λ row, get row 0) <$> rows a.
Proof.
  unfold table_3d; simpl. rewrite column_at_imap, <-list_fmap_compose.
  by apply list_fmap_ext.
Qed.

(** C3: the final table.  In every table that [compute_default_table]
    writes, no label occurs twice (given that the collaborators report
    every label once: [regionprops] one region per label, the workflow one
    attribute row per label), no row has n_pixels equal to 0, and there is
    no row of the background label 0 (which [regionprops] never reports
    and which the 3D path drops). *)
Theorem final_table_invariant env seg_path seg_key table_path resolution
    tmp_folder target max_jobs correct_anchors w table path sep index
    na_rep :
  (∀ seg props, regionprops env seg = inr props →
                NoDup (label <$> props)
                ∧ Forall (λ p, label p ≠ 0%nat) props) →
  (∀ p k a, open_file_array env p k = inr a →
            NoDup ((λ row, get row 0) <$> rows a)) →
  EvToCsv table path sep index na_rep ∈ new_events w
    (compute_default_table env seg_path seg_key table_path resolution
       tmp_folder target max_jobs correct_anchors w).2 →
  ∃ ids sizes,
    df_column "label_id" table = inr ids
    ∧ df_column "n_pixels" table = inr sizes
    ∧ NoDup ids
    ∧ Forall (λ x, x ≠ num_zero) sizes
    ∧ Forall (λ x, x ≠ num_zero) ids.
Proof.
  intros Hprops Hattrs Hin.
  apply written_table in Hin as (ndim & table0 & w1 & _ & Hex & Hrm & _).
  pose proof (extract_table_columns _ _ _ _ _ _ _ _ _ _ _ _ Hex) as Hcols.
  unfold extract_table in Hex. unfold _remove_empty_columns in Hrm.
  destruct (ndim =? 2)%nat.
  - rewrite (drop_zero_rows "n_pixels" 7 table0) in Hrm
      by (rewrite Hcols; reflexivity).
    injection Hrm as <-.
    destruct (_compute_table_2d_labels _ _ _ _ _ _ _ Hex)
      as (seg & props & Hp & Hlab).
    destruct (Hprops _ _ Hp) as [Hnd Hnz].
    eexists _, _.
    split; [apply (df_column_at _ 0); simpl; by rewrite Hcols|].
    split; [apply (df_column_at _ 7); simpl; by rewrite Hcols|].
    simpl. split; [|split].
    + apply column_at_filter_NoDup. rewrite Hlab.
      rewrite (list_fmap_compose label num_of_nat).
      apply NoDup_fmap_2; [apply num_of_nat_inj | done].
    + apply column_at_nonzero.
    + apply column_at_filter_Forall. rewrite Hlab.
      apply Forall_fmap. eapply Forall_impl; [exact Hnz|].
      intros p Hp0 Heq. simpl in Heq. apply Hp0.
      by apply num_of_nat_inj.
  - destruct (_compute_table_3d_returns _ _ _ _ _ _ _ _ _ _ _ Hex)
      as (a & ra & rb & rc & tl & Ha & _ & _ & _ & ->).
    rewrite (drop_zero_rows "n_pixels" 10) in Hrm by reflexivity.
    injection Hrm as <-.
    eexists _, _.
    split; [by apply (df_column_at _ 0)|].
    split; [by apply (df_column_at _ 10)|].
    cbn [df_rows]. split; [|split].
    + do 2 apply column_at_filter_NoDup.
      change (NoDup (column_at 0 (df_rows (table_3d ra rb rc a)))).
      rewrite table_3d_labels. by eapply Hattrs.
    + apply column_at_nonzero.
    + apply column_at_filter_Forall, column_at_nonzero.
Qed.

Lemma final_table_invariant_witness :
  ∃ ids sizes,
    df_column "label_id"
      (last_written
         (sample_run 3 true [frac 1 1; frac 2 1; frac 3 1] 8 false).2)
    = inr ids
    ∧ df_column "n_pixels"
        (last_written
           (sample_run 3 true [frac 1 1; frac 2 1; frac 3 1] 8 false).2)
      = inr sizes
    ∧ NoDup ids
    ∧ Forall (λ x, x ≠ num_zero) sizes
    ∧ Forall (λ x, x ≠ num_zero) ids.
Proof.
  apply (final_table_invariant (sample_env 3 true) "seg.n5" "seg"
           "out/tables/default.tsv" [frac 1 1; frac 2 1; frac 3 1]
           "tmp" "local" 8 false empty_world _
           "out/tables/default.tsv" tab_char false "nan").
  - intros seg props [= <-]. split.
    + apply (bool_decide_unpack _). vm_compute. exact I.
    + repeat constructor. simpl. lia.
  - intros p k a [= <-].
    apply (bool_decide_unpack _). vm_compute. exact I.
  - vm_compute. do 3 apply list_elem_of_further. apply list_elem_of_here.
Defined.

(** ** Supplied anchors: the merge with the centres of mass *)

Lemma view_to_array_app_l S a v :
  (base v < length S)%nat →
  view_to_array (S ++ [a]) v = view_to_array S v.
Proof. intros H. unfold view_to_array. by rewrite lookup_app_l. Qed.

Lemma view_to_array_last S a s wd rv :
  view_to_array (S ++ [a]) (mk_view (length S) s wd rv)
  = mk_ndarray wd (select (view_cols (mk_view (length S) s wd rv)) <$> rows a).
Proof. unfold view_to_array; simpl. by rewrite store_lookup_last. Qed.

Lemma length_mask_filter_fmap {A B} (g : A → bool) (h : A → B) (l : list A) :
  length (mask_filter (g <$> l) (h <$> l))
  = length (mask_filter (g <$> l) (g <$> l)).
Proof.
  induction l as [|x l IH]; [done|]. simpl. destruct (g x); simpl; [f_equal|]; exact IH.
Qed.

(** Assigning the masked rows of one array to the masked rows of another,
    seen on the rows of both side by side. *)
Lemma assign_masked_zip {A} (cs : list nat) (m : A → bool)
    (old val : A → list num) (L : list A) :
  (∀ x, length (val x) = 3%nat) → length cs = 3%nat →
  assign_masked cs (old <$> L) (m <$> L) (mask_filter (m <$> L) (val <$> L))
  = (λ x, if m x then set_cols cs (val x) (old x) else old x) <$> L.
Proof.
  intros Hval Hcs. induction L as [|x L IH]; [done|]. simpl.
  destruct (m x); simpl; [|f_equal; exact IH].
  f_equal; [|exact IH]. f_equal. specialize (Hval x).
  destruct (val x) as [|? [|? [|? [|]]]]; simpl in *; try done.
Qed.

Lemma select_set_cols c0 c1 c2 v row :
  c0 ≠ c1 → c0 ≠ c2 → c1 ≠ c2 →
  (c0 < length row)%nat → (c1 < length row)%nat → (c2 < length row)%nat →
  length v = 3%nat →
  select [c0; c1; c2] (set_cols [c0; c1; c2] v row) = v.
Proof.
  intros H01 H02 H12 L0 L1 L2 Hv.
  destruct v as [|v0 [|v1 [|v2 [|]]]]; try done.
  unfold select, set_cols, get; simpl.
  rewrite list_lookup_insert_eq by (by rewrite !length_insert).
  rewrite list_lookup_insert_ne, list_lookup_insert_eq
    by (done || by rewrite ?length_insert).
  rewrite list_lookup_insert_ne, list_lookup_insert_ne, list_lookup_insert_eq
    by done.
  done.
Qed.


Lemma run_assert_true b w : b = true → assert_ b w = (inr tt, w).
Proof. by intros ->. Qed.

Lemma run_read v w : read v w = (inr (view_to_array (store w) v), w).
Proof. reflexivity. Qed.

Lemma run_getitem_mask v mask w :
  length mask = length (rows (view_to_array (store w) v)) →
  getitem_mask v mask w
  = (inr (mk_ndarray (width v)
            (mask_filter mask (rows (view_to_array (store w) v)))), w).
Proof.
  intros H. unfold getitem_mask. cbv zeta. by rewrite H, Nat.eqb_refl.
Qed.

Lemma run_setitem_mask v mask vals w :
  length mask = length (rows (view_to_array (store w) v)) →
  length (rows vals) = length (mask_filter mask mask) →
  ncols vals = width v →
  setitem_mask v mask vals w
  = (inr tt,
     mk_world (alter (λ a, mk_ndarray (ncols a)
                             (assign_masked (view_cols v) (rows a) mask
                                            (rows vals)))
                     (base v) (store w))
              (log w)).
Proof.
  intros H1 H2 H3. unfold setitem_mask. cbv zeta.
  by rewrite H1, H2, H3, !Nat.eqb_refl.
Qed.

Lemma rows_view_to_array S v b :
  S !! base v = Some b →
  rows (view_to_array S v) = select (view_cols v) <$> rows b.
Proof. intros H. unfold view_to_array. by rewrite H. Qed.

Lemma length_mask_filter {A} (mask : list bool) (l : list A) :
  length l = length mask →
  length (mask_filter mask l) = length (mask_filter mask mask).
Proof.
  revert l. induction mask as [|m mask IH]; intros [|x l] Hl; try done.
  simpl in *. destruct m; simpl; [f_equal|]; apply IH; lia.
Qed.

Lemma store_alter_last' {A} (F : A → A) (l : list A) (a : A) n :
  length l = n → alter F n (l ++ [a]) = l ++ [F a].
Proof. intros <-. apply store_alter_last. Qed.

Lemma store_lookup_last' {A} (l : list A) (a : A) n :
  length l = n → (l ++ [a]) !! n = Some a.
Proof. intros <-. apply store_lookup_last. Qed.

Lemma run_mapM_read vs w :
  mapM read vs w = (inr (view_to_array (store w) <$> vs), w).
Proof.
  induction vs as [|v vs IH]; [done|]. simpl.
  erewrite run_bind_inr by apply run_read.
  erewrite run_bind_inr by apply IH. done.
Qed.

Lemma np_concatenate_fmap {A} (f0 f1 f2 f3 f4 : A → list num)
    (n0 n1 n2 n3 n4 : nat) (L : list A) :
  np_concatenate [mk_ndarray n0 (f0 <$> L); mk_ndarray n1 (f1 <$> L);
                  mk_ndarray n2 (f2 <$> L); mk_ndarray n3 (f3 <$> L);
                  mk_ndarray n4 (f4 <$> L)]
  = inr (mk_ndarray (n0 + n1 + n2 + n3 + n4)
           ((λ x, f0 x ++ f1 x ++ f2 x ++ f3 x ++ f4 x) <$> L)).
Proof.
  unfold np_concatenate. cbn [rows ncols forallb foldl].
  rewrite !length_fmap, !Nat.eqb_refl. cbn [andb].
  rewrite !zip_with_app_fmap. do 2 f_equal.
  apply list_fmap_ext. intros i x _. by rewrite <-!app_assoc.
Qed.

Lemma view_to_array_last' S a n s wd rv :
  length S = n →
  view_to_array (S ++ [a]) (mk_view n s wd rv)
  = mk_ndarray wd (select (view_cols (mk_view n s wd rv)) <$> rows a).
Proof. intros <-. apply view_to_array_last. Qed.

(** The anchor columns of a row of the anchor array after the merge and the
    translation, read through the reversed view. *)
Lemma merged_anchor_translated c0 c1 c2 ra rb rc row r :
  c0 ≠ c1 → c0 ≠ c2 → c1 ≠ c2 →
  (c0 < length r)%nat → (c1 < length r)%nat → (c2 < length r)%nat →
  select [c2; c1; c0]
    (translated_row c0 c1 c2 ra rb rc
       (if forallb (λ x, np_isclose x num_zero) (select [c0; c1; c2] r)
        then set_cols [c0; c1; c2] (select [2; 3; 4]%nat row) r
        else r))
  = zip_with num_mul (reverse (merged_anchor row (select [c0; c1; c2] r)))
             [ra; rb; rc].
Proof.
  intros H01 H02 H12 L0 L1 L2.
  rewrite translated_row_select_rev by done.
  unfold merged_anchor.
  destruct (forallb _ (select [c0; c1; c2] r)); [|done].
  change (select [2; 3; 4]%nat row)
    with [get row 2; get row 3; get row 4].
  pose proof (select_set_cols c0 c1 c2 [get row 2; get row 3; get row 4] r
                H01 H02 H12 L0 L1 L2 eq_refl) as Hsel.
  unfold select in Hsel. cbn [fmap list_fmap] in Hsel.
  injection Hsel as -> -> ->. done.
Qed.

Lemma merged_row_attributes ra rb rc row :
  let row' := translated_row 8 9 10 ra rb rc
                (translated_row 5 6 7 ra rb rc row) in
  select [0%nat] row' = [get row 0]
  ∧ select [7; 6; 5]%nat row' ++ select [10; 9; 8]%nat row'
    ++ select [1%nat] row'
    = [num_mul (get row 7) ra; num_mul (get row 6) rb;
       num_mul (get row 5) rc; num_mul (get row 10) ra;
       num_mul (get row 9) rb; num_mul (get row 8) rc; get row 1].
Proof.
  do 11 (destruct row as [|? row]; [by split|]). by split.
Qed.

Lemma _n5_to_pandas_merge_run env input_path input_key resolution ra rb rc tl
    a anchors b w :
  open_file_array env input_path input_key = inr a →
  (11 ≤ ncols a)%nat →
  reverse resolution = ra :: rb :: rc :: tl →
  store w !! base anchors = Some b →
  width anchors = 3%nat →
  length (rows b) = length (rows a) →
  Forall (λ row, (start anchors + 3 ≤ length row)%nat) (rows b) →
  ∃ w',
    _n5_to_pandas env input_path input_key resolution (Some anchors) w
    = (remove_background_label_row
         (mk_df col_names_3d
            (imap (λ i r, (i, r))
               (zip_with (merged_row ra rb rc) (rows a) (batch w anchors)))),
       w').
Proof.
  intros Ha Hn Hres Hb Hw Hlen Hrange.
  assert (base anchors < length (store w))%nat as Hlt
    by (by eapply lookup_lt_Some).
  destruct (view_cols_width3 anchors Hw)
    as (c0 & c1 & c2 & Hc & H01 & H02 & H12).
  assert (Forall (λ r, (c0 < length r)%nat ∧ (c1 < length r)%nat
                       ∧ (c2 < length r)%nat) (rows b)) as Hcols.
  { eapply Forall_impl; [exact Hrange|]. intros r Hr. simpl in Hr.
    unfold view_cols in Hc. rewrite Hw in Hc.
    destruct (reversed anchors); simpl in Hc; injection Hc as <- <- <-; lia. }
  unfold _n5_to_pandas.
  erewrite run_bind_inr by (rewrite Ha; apply run_lift).
  erewrite run_bind_inr by reflexivity.
  destruct a as [n rws]; cbn [ncols rows] in Hn, Hlen |- *.
  do 11 (destruct n as [|n]; [lia|]). clear Hn.
  set (S0 := store w) in *.
  set (a := mk_ndarray _ rws).
  change (slice_cols 0 1 _) with (mk_view (length S0) 0 1 false).
  change (slice_cols 1 2 _) with (mk_view (length S0) 1 1 false).
  change (slice_cols 2 5 _) with (mk_view (length S0) 2 3 false).
  change (slice_cols 5 8 _) with (mk_view (length S0) 5 3 false).
  change (slice_cols 8 11 _) with (mk_view (length S0) 8 3 false).
  set (w1 := mk_world (S0 ++ [a]) (log w)).
  assert (rows (view_to_array (store w1) anchors)
          = select [c0; c1; c2] <$> rows b) as Hanch.
  { rewrite <-Hc. apply rows_view_to_array. subst w1. cbn [store].
    by rewrite lookup_app_l. }
  assert (rows (view_to_array (store w1) (mk_view (length S0) 2 3 false))
          = select [2; 3; 4]%nat <$> rws) as Hcom.
  { subst w1. cbn [store]. by rewrite view_to_array_last. }
  set (mask := forallb (λ x, np_isclose x num_zero)
               <$> (select [c0; c1; c2] <$> rows b)).
  (* the merge of the supplied anchors with the centres of mass *)
  erewrite run_bind_inr; cycle 1.
  { erewrite run_bind_inr by apply run_read.
    erewrite run_bind_inr by apply run_read.
    erewrite run_bind_inr
      by (apply run_assert_true; rewrite Hanch, Hcom, !length_fmap, Hlen;
          apply Nat.eqb_refl).
    erewrite run_bind_inr
      by (apply run_assert_true; rewrite Hw; reflexivity).
    erewrite run_bind_inr by apply run_read.
    rewrite Hanch. fold mask.
    erewrite run_bind_inr
      by (apply run_getitem_mask; rewrite Hcom; subst mask;
          by rewrite !length_fmap).
    rewrite Hcom.
    erewrite run_bind_inr; cycle 1.
    { apply run_setitem_mask.
      - rewrite Hanch. subst mask. by rewrite !length_fmap.
      - cbn [rows]. apply length_mask_filter. subst mask.
        by rewrite !length_fmap.
      - by rewrite Hw. }
    eapply translate_coordinate_tuple_run; [exact Hres | exact Hc]. }
  cbn [store log width rows]. subst w1. cbn [store log].
  rewrite list_alter_alter_eq, alter_app_l by done.
  set (S1 := alter _ (base anchors) S0).
  assert (length S1 = length S0) as HS1 by (subst S1; apply length_alter).
  assert (S1 !! base anchors
          = Some (map_rows (translated_row c0 c1 c2 ra rb rc)
                    (mk_ndarray (ncols b)
                       (assign_masked [c0; c1; c2] (rows b) mask
                          (mask_filter mask (select [2; 3; 4]%nat <$> rws))))))
    as HS1b.
  { subst S1. rewrite list_lookup_alter_eq. fold S0 in Hb.
    by rewrite Hb, Hc. }
  (* the two bounding-box batches *)
  erewrite run_bind_inr
    by (eapply (translate_coordinate_tuple_run _ ra rb rc tl _ 5 6 7);
        [exact Hres | reflexivity]).
  erewrite run_bind_inr
    by (eapply (translate_coordinate_tuple_run _ ra rb rc tl _ 8 9 10);
        [exact Hres | reflexivity]).
  cbn [store log base].
  rewrite list_alter_alter_eq, (store_alter_last' _ S1) by done.
  erewrite run_bind_inr by apply run_mapM_read.
  cbn [store]. rewrite !fmap_cons, fmap_nil.
  change (reverse_cols (mk_view (length S0) 5 3 false))
    with (mk_view (length S0) 5 3 true).
  change (reverse_cols (mk_view (length S0) 8 3 false))
    with (mk_view (length S0) 8 3 true).
  rewrite !(view_to_array_last' S1) by done.
  unfold view_to_array at 1. cbn [base reverse_cols width].
  rewrite lookup_app_l, HS1b by lia.
  rewrite view_cols_reverse, Hc.
  change (reverse [c0; c1; c2]) with [c2; c1; c0].
  change (view_cols (mk_view (length S0) 0 1 false)) with [0%nat].
  change (view_cols (mk_view (length S0) 1 1 false)) with [1%nat].
  change (view_cols (mk_view (length S0) 5 3 true)) with [7; 6; 5]%nat.
  change (view_cols (mk_view (length S0) 8 3 true)) with [10; 9; 8]%nat.
  rewrite Hw. subst a. cbn [width reverse_cols rows map_rows compose].
  (* all five parts as maps over the rows of both arrays, side by side *)
  set (L := zip rws (rows b)).
  assert (rws = L.*1) as HL1 by (subst L; by rewrite fst_zip by lia).
  assert (rows b = L.*2) as HL2 by (subst L; by rewrite snd_zip by lia).
  subst mask. rewrite HL1, HL2. rewrite <-!list_fmap_compose.
  rewrite (assign_masked_zip [c0; c1; c2]
             (forallb (λ x, np_isclose x num_zero) ∘ select [c0; c1; c2] ∘ snd)
             snd (select [2; 3; 4]%nat ∘ fst) L) by done.
  rewrite <-!list_fmap_compose.
  eexists.
  erewrite run_bind_inr by (rewrite np_concatenate_fmap; apply run_lift).
  erewrite run_bind_inr by reflexivity.
  cbn [rows]. unfold lift. f_equal. f_equal. f_equal. f_equal.
  unfold batch. fold S0. rewrite (rows_view_to_array _ _ _ Hb), Hc.
  rewrite zip_with_fmap_r, zip_with_zip, HL2, zip_fst_snd.
  apply list_fmap_ext. intros i [row r] Hx.
  unfold compose. cbn [fst snd uncurry].
  assert (r ∈ rows b) as Hr.
  { apply list_elem_of_lookup_2 in Hx. subst L. by apply elem_of_zip_r in Hx. }
  eapply Forall_forall in Hcols as (L0 & L1 & L2); [|exact Hr].
  unfold merged_row.
  destruct (merged_row_attributes ra rb rc row) as [Hlab Hbox].
  cbv zeta in Hlab, Hbox.
  rewrite Hlab, <-Hbox, merged_anchor_translated by done.
  reflexivity.
Qed.

Lemma np_isclose_zero q :
  np_isclose (Fin q) num_zero = true ↔ (Qc_abs q ≤ atol)%Qc.
Proof.
  unfold np_isclose, num_zero, num_of_Z.
  rewrite bool_decide_eq_true.
  change (Q2Qc (inject_Z 0)) with 0%Qc.
  replace (q - 0)%Qc with q by ring.
  replace (atol + rtol * Qc_abs 0)%Qc with atol; [done|].
  apply Qc_is_canon. by vm_compute.
Qed.

(** C6: the anchor-merge policy.  When [_n5_to_pandas] is given anchors
    (a 3-wide array with one row per attribute row), every table row is
    built from the attribute row and its supplied anchor by [merged_row]:
    if all three coordinates of the anchor are close to zero in the sense
    of [numpy.isclose], the untranslated centre of mass of that row takes
    its place, otherwise the supplied anchor is kept; the chosen anchor is
    then reversed and scaled like every other coordinate. *)
Theorem anchor_merge_policy env input_path input_key resolution ra rb rc tl
    a anchors b w :
  open_file_array env input_path input_key = inr a →
  (11 ≤ ncols a)%nat →
  reverse resolution = ra :: rb :: rc :: tl →
  store w !! base anchors = Some b →
  width anchors = 3%nat →
  length (rows b) = length (rows a) →
  Forall (λ row, (start anchors + 3 ≤ length row)%nat) (rows b) →
  (∃ w',
     _n5_to_pandas env input_path input_key resolution (Some anchors) w
     = (remove_background_label_row
          (mk_df col_names_3d
             (imap (λ i r, (i, r))
                (zip_with (merged_row ra rb rc) (rows a)
                          (batch w anchors)))),
        w'))
  ∧ (∀ row anchor,
       forallb (λ x, np_isclose x num_zero) anchor = true →
       merged_row ra rb rc row anchor
       = [get row 0; num_mul (get row 4) ra; num_mul (get row 3) rb;
          num_mul (get row 2) rc]
         ++ drop 4 (row_3d ra rb rc row))
  ∧ (∀ row z y x,
       forallb (λ x, np_isclose x num_zero) [z; y; x] = false →
       merged_row ra rb rc row [z; y; x]
       = [get row 0; num_mul x ra; num_mul y rb; num_mul z rc]
         ++ drop 4 (row_3d ra rb rc row)).
Proof.
  intros Ha Hn Hres Hb Hw Hlen Hrange. split; [|split].
  - by eapply _n5_to_pandas_merge_run.
  - intros row anchor Hz. unfold merged_row, merged_anchor. by rewrite Hz.
  - intros row z y x Hz. unfold merged_row, merged_anchor. by rewrite Hz.
Qed.

Lemma anchor_merge_policy_witness :
  ∃ w',
    _n5_to_pandas (sample_env 3 true) "tmp/data.n5" "attributes"
                  [frac 1 1; frac 2 1; frac 3 1] (Some sample_anchors)
                  sample_anchor_world
    = (remove_background_label_row
         (mk_df col_names_3d
            (imap (λ i r, (i, r))
               (zip_with (merged_row (frac 3 1) (frac 2 1) (frac 1 1))
                         (rows sample_attributes)
                         (batch sample_anchor_world sample_anchors)))),
       w').
Proof.
  eapply (anchor_merge_policy (sample_env 3 true) "tmp/data.n5" "attributes"
            [frac 1 1; frac 2 1; frac 3 1] _ _ _ [] sample_attributes
            sample_anchors).
  - reflexivity.
  - simpl. lia.
  - reflexivity.
  - reflexivity.
  - reflexivity.
  - reflexivity.
  - repeat constructor.
Defined.

(** ** The translator works in place *)

(** C7 (amended): the translator is applied to every batch as it is, with
    no case for zero-valued coordinates, and returns the batch reversed and
    scaled; but it is not pure.  It scales through a view: after the call
    the batch it was given holds every coordinate multiplied by its
    resolution, in the array the batch is a slice of.  Columns outside the
    batch, other arrays and the log are left alone.  In [_n5_to_pandas] the
    attribute array therefore ends with its three coordinate batches
    scaled. *)
Theorem translate_coordinate_tuple_in_place w coords resolution :
  width coords = 3%nat →
  length resolution = 3%nat →
  (∃ w',
     translate_coordinate_tuple (reverse resolution) coords w
     = (inr (reverse_cols coords), w')
     ∧ batch w' (reverse_cols coords) = translated resolution (batch w coords)
     ∧ batch w' coords = scaled resolution (batch w coords)
     ∧ log w' = log w
     ∧ (∀ v, base v ≠ base coords → batch w' v = batch w v)
     ∧ (∀ v, (∀ c, c ∈ view_cols coords → c ∉ view_cols v) →
             batch w' v = batch w v))
  ∧ (∀ env input_path input_key a,
       open_file_array env input_path input_key = inr a →
       (11 ≤ ncols a)%nat →
       (_n5_to_pandas env input_path input_key resolution None w).2
       = mk_world
           (store w
            ++ [map_rows
                  (λ row,
                     attributes_after (resolution !!! 2%nat)
                       (resolution !!! 1%nat) (resolution !!! 0%nat) row)
                  a])
           (log w)).
Proof.
  intros Hw Hl.
  destruct resolution as [|r0 [|r1 [|r2 [|]]]]; try done. split.
  - destruct (translate_coordinate_tuple_effect w coords r0 r1 r2 Hw)
      as (w' & H1 & H2 & H3 & H4 & _ & H5 & H6).
    by exists w'.
  - intros env input_path input_key a Ha Hn.
    by erewrite _n5_to_pandas_run.
Qed.

Lemma translate_coordinate_tuple_in_place_witness :
  ∃ w',
    translate_coordinate_tuple (reverse [frac 1 2; frac 2 1; frac 3 1])
                               sample_com sample_world
    = (inr (reverse_cols sample_com), w')
    ∧ batch w' sample_com
      = scaled [frac 1 2; frac 2 1; frac 3 1] (batch sample_world sample_com).
Proof.
  destruct (translate_coordinate_tuple_in_place sample_world sample_com
              [frac 1 2; frac 2 1; frac 3 1])
    as [(w' & H1 & _ & H3 & _) _].
  - reflexivity.
  - reflexivity.
  - by exists w'.
Defined.

(** C7, as stated, fails: after a call of the translator on the centres of
    mass of the sample attributes, that batch and the attribute array in
    the store differ from what they were. *)
Lemma translate_coordinate_tuple_mutates_input :
  batch (translate_coordinate_tuple (reverse [frac 1 2; frac 2 1; frac 3 1])
           sample_com sample_world).2 sample_com
  ≠ batch sample_world sample_com
  ∧ store (translate_coordinate_tuple
             (reverse [frac 1 2; frac 2 1; frac 3 1])
             sample_com sample_world).2
    ≠ [sample_attributes].
Proof.
  split.
  - apply (bool_decide_unpack _). vm_compute. exact I.
  - intros H. apply (f_equal (λ s, rows <$> s)) in H. revert H.
    apply (bool_decide_unpack _). vm_compute. exact I.
Qed.

(** ** A resolution of the wrong length *)

(** C8 is not met by the code: a call on a 3D segmentation with a
    resolution of four values goes through.  The translator takes the last
    three values, reversed, so x is scaled by the fourth value, y by the
    third and z by the second, and the table is written. *)
Lemma resolution_length_unchecked :
  (sample_run 3 true [frac 1 1; frac 2 1; frac 3 1; frac 4 1] 8 false).1
  = inr tt
  ∧ df_rows
      (last_written
         (sample_run 3 true [frac 1 1; frac 2 1; frac 3 1; frac 4 1] 8
                     false).2)
    = [(1%nat, [frac 1 1; frac 12 1; frac 6 1; frac 1 1;
                frac 12 1; frac 6 1; frac 2 1;
                frac 24 1; frac 15 1; frac 8 1; frac 5 1])]
  ∧ (∃ w',
       translate_coordinate_tuple
         (reverse [frac 1 1; frac 2 1; frac 3 1; frac 4 1])
         sample_com sample_world
       = (inr (reverse_cols sample_com), w')).
Proof.
  split; [reflexivity|]. split.
  - apply (bool_decide_unpack _). vm_compute. exact I.
  - eexists. reflexivity.
Qed.

(** ** The 2D extractor: when it returns *)

Lemma mapM_row_2d centers resolution props w :
  Forall (region_2d centers) props →
  mapM (λ p,
      ce ← lift (list_getitem centers (label p));
      mret ([num_of_nat (label p)]
            ++ zip_with (λ ce res, num_mul ce res) ce resolution
            ++ zip_with (λ bb res, num_mul (num_of_Z bb) res)
                        (take 2 (bbox p)) resolution
            ++ zip_with (λ bb res, num_mul (num_of_Z bb) res)
                        (drop 2 (bbox p)) resolution
            ++ [num_of_Z (area p)])) props w
  = (inr (row_2d centers resolution <$> props), w).
Proof.
  induction 1 as [|p props [(ce & Hce & _) _] _ IH]; [done|]. simpl.
  erewrite run_bind_inr; cycle 1.
  { erewrite run_bind_inr; [apply run_mret|].
    unfold list_getitem. rewrite Hce. apply run_lift. }
  erewrite run_bind_inr by exact IH.
  rewrite run_mret. unfold row_2d at 2. by rewrite Hce.
Qed.

Lemma length_row_2d centers r0 r1 p :
  region_2d centers p → length (row_2d centers [r0; r1] p) = 8%nat.
Proof.
  intros [(ce & Hce & Hl) Hb]. unfold row_2d. rewrite Hce. simpl.
  destruct ce as [|? [|? [|]]]; try done.
  destruct (bbox p) as [|? [|? [|? [|? [|]]]]]; done.
Qed.

(** On an image with at least one region the 2D extractor returns a table
    with one row per region. *)
Lemma _compute_table_2d_returns env seg_path seg_key resolution seg centers
    props w :
  open_file_image env seg_path seg_key = inr seg →
  image_ndim env seg = 2%nat →
  length resolution = 2%nat →
  eccentricityCenters env seg = inr centers →
  regionprops env seg = inr props →
  props ≠ [] →
  Forall (region_2d centers) props →
  _compute_table_2d env seg_path seg_key resolution w
  = (inr (mk_df col_names_2d
            (imap (λ i r, (i, r)) (row_2d centers resolution <$> props))),
     w).
Proof.
  intros Hseg Hnd Hres Hce Hprops Hne Hreg.
  destruct resolution as [|r0 [|r1 [|]]]; try done.
  unfold _compute_table_2d.
  erewrite run_bind_inr by (rewrite Hseg; apply run_lift).
  erewrite run_bind_inr by (rewrite Hnd; reflexivity).
  erewrite run_bind_inr by (rewrite Hce; apply run_lift).
  erewrite run_bind_inr by (rewrite Hprops; apply run_lift).
  erewrite run_bind_inr by (by apply mapM_row_2d).
  assert (np_array (row_2d centers [r0; r1] <$> props)
          = inr (Arr2 (mk_ndarray 8 (row_2d centers [r0; r1] <$> props))))
    as Harr.
  { destruct Hreg as [|p props Hp Hreg]; [done|].
    unfold np_array. rewrite fmap_cons.
    rewrite (length_row_2d _ _ _ _ Hp).
    replace (forallb _ _) with true; [done|]. symmetry.
    clear Hprops Hne. induction Hreg as [|q props Hq _ IH]; [done|].
    rewrite fmap_cons. cbn [forallb].
    by rewrite (length_row_2d _ _ _ _ Hq), IH. }
  erewrite run_bind_inr by (rewrite Harr; apply run_lift).
  erewrite run_bind_inr by reflexivity.
  erewrite run_bind_inr by reflexivity.
  reflexivity.
Qed.

(** On an image without any region the 2D extractor stops at
    [tab.shape[1]]: the array made of no rows is one-dimensional. *)
Lemma _compute_table_2d_no_region env seg_path seg_key resolution seg
    centers w :
  open_file_image env seg_path seg_key = inr seg →
  image_ndim env seg = 2%nat →
  length resolution = 2%nat →
  eccentricityCenters env seg = inr centers →
  regionprops env seg = inr [] →
  _compute_table_2d env seg_path seg_key resolution w = (inl IndexError, w).
Proof.
  intros Hseg Hnd Hres Hce Hprops. unfold _compute_table_2d.
  erewrite run_bind_inr by (rewrite Hseg; apply run_lift).
  erewrite run_bind_inr by (rewrite Hnd, Hres; reflexivity).
  erewrite run_bind_inr by (rewrite Hce; apply run_lift).
  erewrite run_bind_inr by (rewrite Hprops; apply run_lift).
  reflexivity.
Qed.

(** On an attribute array of at least 11 columns, with a resolution of at
    least 3 values, [_n5_to_pandas] returns a table; an array without rows
    gives a table without rows. *)
Lemma _n5_to_pandas_total env input_path input_key resolution ra rb rc tl
    a w :
  open_file_array env input_path input_key = inr a →
  (11 ≤ ncols a)%nat →
  reverse resolution = ra :: rb :: rc :: tl →
  ∃ df w',
    _n5_to_pandas env input_path input_key resolution None w = (inr df, w')
    ∧ columns df = col_names_3d
    ∧ (rows a = [] → df_rows df = []).
Proof.
  intros Ha Hn Hres.
  rewrite (_n5_to_pandas_run _ _ _ _ _ _ _ _ _ _ Ha Hn Hres).
  unfold remove_background_label_row.
  rewrite (drop_zero_rows "label_id" 0 (table_3d ra rb rc a)) by reflexivity.
  eexists _, _. split; [reflexivity|]. split; [done|].
  intros Hrows. simpl. by rewrite Hrows.
Qed.

(** ** Sample runs *)

(** A 2D image with one 4x4 square of label 1 at the origin and resolution
    (1, 1): one row, label 1, 16 pixels, the box from (0, 0) to (4, 4). *)
Example sample_run_2d :
  (sample_run 2 true [frac 1 1; frac 1 1] 8 false).1 = inr tt
  ∧ last_written (sample_run 2 true [frac 1 1; frac 1 1] 8 false).2
    = mk_df col_names_2d
        [(0%nat, [frac 1 1; frac 3 2; frac 5 2;
                  frac 0 1; frac 0 1; frac 4 1; frac 4 1; frac 16 1])].
Proof.
  split; [reflexivity|].
  apply (bool_decide_unpack _). vm_compute. exact I.
Qed.

(** The sample 3D run: the background row and the row without voxels are
    gone; the coordinates of label 1 are reversed to x, y, z and scaled. *)
Example sample_run_3d :
  (sample_run 3 true [frac 1 1; frac 2 1; frac 3 1] 8 false).1 = inr tt
  ∧ last_written (sample_run 3 true [frac 1 1; frac 2 1; frac 3 1] 8 false).2
    = mk_df col_names_3d
        [(1%nat, [frac 1 1; frac 9 1; frac 4 1; frac 1 2;
                  frac 9 1; frac 4 1; frac 1 1;
                  frac 18 1; frac 10 1; frac 4 1; frac 5 1])].
Proof.
  split; [reflexivity|].
  apply (bool_decide_unpack _). vm_compute. exact I.
Qed.

(** With the supplied sample anchors, label 1 keeps its anchor (7, 8, 9),
    reversed and scaled; label 2, whose anchor is zero up to noise, gets its
    centre of mass. *)
Example sample_anchor_merge :
  zip_with (merged_row (frac 3 1) (frac 2 1) (frac 1 1))
           (rows sample_attributes)
           (batch sample_anchor_world sample_anchors)
  = [ [frac 0 1; frac 9 1; frac 4 1; frac 1 1;
       frac 0 1; frac 0 1; frac 0 1; frac 27 1; frac 18 1; frac 9 1;
       frac 100 1];
      [frac 1 1; frac 27 1; frac 16 1; frac 7 1;
       frac 9 1; frac 4 1; frac 1 1; frac 18 1; frac 10 1; frac 4 1;
       frac 5 1];
      [frac 2 1; frac 0 1; frac 0 1; frac 0 1;
       frac 0 1; frac 0 1; frac 0 1; frac 0 1; frac 0 1; frac 0 1;
       frac 0 1] ].
Proof. apply (bool_decide_unpack _). vm_compute. exact I. Qed.

(** * Further properties of the module *)

(** ** Copying an existing table *)

Lemma nonempty_elements (X : gset string) :
  nonempty (elements X) = false ↔ X = ∅.
Proof.
  split.
  - intros H. apply leibniz_equiv, elements_empty_iff.
    by destruct (elements X).
  - intros ->. by rewrite elements_empty.
Qed.

Lemma missing_columns_empty (wanted : gset string) (cols : list string) :
  wanted ∖ list_to_set cols = ∅ ↔ ∀ c, c ∈ wanted → c ∈ cols.
Proof.
  split.
  - intros H c Hc. destruct (decide (c ∈ cols)) as [|Hn]; [done|].
    assert (c ∈ wanted ∖ (list_to_set cols : gset string)) as Hin
      by (apply elem_of_difference; split; [done|]; by rewrite elem_of_list_to_set).
    rewrite H in Hin. by apply elem_of_empty in Hin.
  - intros H. apply set_eq. intros c.
    rewrite elem_of_difference, elem_of_list_to_set. split; [|set_solver].
    intros [Hc Hn]. by apply H in Hc.
Qed.

(** X1: a table that lacks a required column is not copied.  If
    [get_columns_for_table_format] names a required column that the table
    read from [input_path] does not have, [check_and_copy_default_table]
    raises ValueError; nothing is written to [output_path] and no warning
    is issued, whatever [suppress_warnings] is. *)
Theorem check_and_copy_missing_required env tools input_path output_path
    is_2d suppress_warnings tab required recommended c s :
  read_table tools input_path = inr tab →
  get_columns_for_table_format tools tab is_2d = inr (required, recommended) →
  c ∈ required →
  c ∉ columns tab →
  check_and_copy_default_table env tools input_path output_path is_2d
                               suppress_warnings s
  = (inl ValueError, s).
Proof.
  intros Hread Hcols Hc Hn. unfold check_and_copy_default_table.
  unfold mbind at 1, MW_bind at 1, in_world at 1, lift at 1 2.
  rewrite Hread. cbn [fst snd].
  unfold mbind at 1, MW_bind at 1, in_world at 1, lift at 1 2.
  rewrite Hcols. cbn [fst snd].
  destruct (nonempty (elements (required ∖ list_to_set (columns tab))))
    eqn:Hne.
  - destruct s. reflexivity.
  - apply nonempty_elements in Hne.
    pose proof (proj1 (missing_columns_empty _ _) Hne c Hc). done.
Qed.

Lemma check_and_copy_missing_required_witness :
  check_and_copy_default_table (sample_env 3 true)
    (sample_tools ["label_id"; "n_pixels"; "score"])
    "in/default.tsv" "out/default.tsv" false true (empty_world, [])
  = (inl ValueError, (empty_world, [])).
Proof.
  eapply (check_and_copy_missing_required _ _ _ _ _ _ sample_table
            _ _ "score").
  - reflexivity.
  - reflexivity.
  - apply elem_of_list_to_set.
    repeat first [apply list_elem_of_here | apply list_elem_of_further].
  - apply (bool_decide_unpack _). vm_compute. exact I.
Defined.

(** X2: a table with all required columns is written as it was read.
    [check_and_copy_default_table] then makes exactly one call to the
    outside, [to_csv] of the unchanged table (rows without pixels
    included) to [output_path], tab-separated, without index and with
    "nan"; it makes no folder.  It warns once, naming exactly the
    recommended columns the table lacks, if there is one and
    [suppress_warnings] is off; [suppress_warnings] changes nothing
    else. *)
Theorem check_and_copy_writes_table_as_read env tools input_path output_path
    is_2d suppress_warnings tab required recommended w ws :
  read_table tools input_path = inr tab →
  get_columns_for_table_format tools tab is_2d = inr (required, recommended) →
  (∀ c, c ∈ required → c ∈ columns tab) →
  ∃ warned,
    check_and_copy_default_table env tools input_path output_path is_2d
                                 suppress_warnings (w, ws)
    = (write_text env output_path (tsv_text (float_repr env) tab),
       (logged w [EvToCsv tab output_path tab_char false "nan"],
        ws ++ warned))
    ∧ (warned = []
       ∨ ∃ missing, warned = [UserWarning missing] ∧ missing ≠ []
                    ∧ ∀ c, c ∈ missing ↔ c ∈ recommended ∧ c ∉ columns tab)
    ∧ (warned = [] ↔
       suppress_warnings = true ∨ ∀ c, c ∈ recommended → c ∈ columns tab).
Proof.
  intros Hread Hcols Hall. unfold check_and_copy_default_table.
  unfold mbind at 1, MW_bind at 1, in_world at 1, lift at 1 2.
  rewrite Hread. cbn [fst snd].
  unfold mbind at 1, MW_bind at 1, in_world at 1, lift at 1 2.
  rewrite Hcols. cbn [fst snd].
  apply (proj2 (missing_columns_empty _ _)) in Hall.
  apply (proj2 (nonempty_elements _)) in Hall. rewrite Hall.
  unfold mbind at 1, MW_bind at 1, mret at 1, MW_ret at 1.
  set (missing := elements (recommended ∖ list_to_set (columns tab))).
  assert (∀ c, c ∈ missing ↔ c ∈ recommended ∧ c ∉ columns tab) as Hmiss.
  { intros c. subst missing.
    by rewrite elem_of_elements, elem_of_difference, elem_of_list_to_set. }
  assert (nonempty missing = false ↔ ∀ c, c ∈ recommended → c ∈ columns tab)
    as Hrec.
  { subst missing. by rewrite nonempty_elements, missing_columns_empty. }
  destruct (nonempty missing) eqn:Hne; destruct suppress_warnings;
    cbn [andb negb];
    unfold mbind, MW_bind, mret, MW_ret, warnings_warn, in_world, to_csv;
    cbn [fst snd]; rewrite !run_call; cbn [fst snd].
  - exists []. rewrite app_nil_r.
    split; [done|]. split; [by left|]. split; [by left|done].
  - exists [UserWarning missing]. split; [done|]. split.
    + right. exists missing. split; [done|]. split; [|done].
      by destruct missing.
    + split; [done|]. intros [?|H]; [done|]. apply Hrec in H. done.
  - exists []. rewrite app_nil_r.
    split; [done|]. split; [by left|]. split; [by left|done].
  - exists []. rewrite app_nil_r. split; [done|]. split; [by left|].
    split; [|done]. intros _. right. by apply Hrec.
Qed.

Lemma check_and_copy_writes_table_as_read_witness :
  ∃ warned,
    check_and_copy_default_table (sample_env 3 true)
      (sample_tools ["label_id"; "n_pixels"])
      "in/default.tsv" "out/default.tsv" false false (empty_world, [])
    = (inr tt,
       (logged empty_world
          [EvToCsv sample_table "out/default.tsv" tab_char false "nan"],
        [] ++ warned))
    ∧ (warned = []
       ∨ ∃ missing, warned = [UserWarning missing] ∧ missing ≠ []
                    ∧ ∀ c, c ∈ missing
                           ↔ c ∈ (list_to_set ["anchor_x"; "comment"]
                                  : gset string)
                             ∧ c ∉ columns sample_table)
    ∧ (warned = [] ↔
       false = true
       ∨ ∀ c, c ∈ (list_to_set ["anchor_x"; "comment"] : gset string) →
              c ∈ columns sample_table).
Proof.
  apply (check_and_copy_writes_table_as_read (sample_env 3 true)
           (sample_tools ["label_id"; "n_pixels"])
           "in/default.tsv" "out/default.tsv" false false sample_table
           (list_to_set ["label_id"; "n_pixels"])
           (list_to_set ["anchor_x"; "comment"]) empty_world []).
  - reflexivity.
  - reflexivity.
  - intros c Hc. apply elem_of_list_to_set in Hc.
    rewrite !elem_of_cons in Hc.
    destruct Hc as [->|[->|Hc]]; [| |by apply elem_of_nil in Hc];
      repeat first [apply list_elem_of_here | apply list_elem_of_further].
Defined.

(** ** The 2D path: errors and content *)

(** X3: a 2D image without any object cannot be tabulated.  When
    [regionprops] reports no region, [compute_default_table] raises
    IndexError (from [tab.shape[1]] on the one-dimensional empty array)
    and makes no call to the outside: no folder, no table. *)
Theorem compute_default_table_2d_no_region env seg_path seg_key table_path
    resolution tmp_folder target max_jobs correct_anchors seg centers w :
  open_file_ndim env seg_path seg_key = inr 2%nat →
  open_file_image env seg_path seg_key = inr seg →
  image_ndim env seg = 2%nat →
  length resolution = 2%nat →
  eccentricityCenters env seg = inr centers →
  regionprops env seg = inr [] →
  compute_default_table env seg_path seg_key table_path resolution
                        tmp_folder target max_jobs correct_anchors w
  = (inl IndexError, w).
Proof.
  intros Hnd Hseg Hdim Hres Hce Hprops.
  rewrite compute_default_table_run, Hnd. unfold extract_table.
  cbn [Nat.eqb].
  by rewrite (_compute_table_2d_no_region _ _ _ _ _ _ _ Hseg Hdim Hres Hce
                Hprops).
Qed.

Lemma compute_default_table_2d_no_region_witness :
  compute_default_table (sample_env_2d []) "seg.n5" "seg"
    "out/tables/default.tsv" [frac 1 1; frac 1 1] "tmp" "local" 8 false
    empty_world
  = (inl IndexError, empty_world).
Proof.
  apply (compute_default_table_2d_no_region (sample_env_2d []) "seg.n5"
           "seg" "out/tables/default.tsv" [frac 1 1; frac 1 1] "tmp"
           "local" 8 false tt
           [[frac 0 1; frac 0 1]; [frac 3 2; frac 5 2]] empty_world);
    reflexivity.
Defined.

(** X4: the shape check of the 2D extractor.  If the resolution does not
    have exactly two values, or the loaded array is not two-dimensional,
    [_compute_table_2d] raises AssertionError, whatever vigra and
    [regionprops] would answer and without changing the world. *)
Theorem _compute_table_2d_shape_assertion env seg_path seg_key resolution
    seg w :
  open_file_image env seg_path seg_key = inr seg →
  length resolution ≠ 2%nat ∨ image_ndim env seg ≠ 2%nat →
  _compute_table_2d env seg_path seg_key resolution w
  = (inl AssertionError, w).
Proof.
  intros Hseg Hbad. unfold _compute_table_2d.
  erewrite run_bind_inr by (rewrite Hseg; apply run_lift).
  apply run_bind_inl.
  replace ((length resolution =? image_ndim env seg)%nat
           && (image_ndim env seg =? 2)%nat) with false; [done|].
  symmetry. apply andb_false_iff.
  destruct (decide (image_ndim env seg = 2%nat)) as [Heq|Hne].
  - left. apply Nat.eqb_neq. destruct Hbad; congruence.
  - right. by apply Nat.eqb_neq.
Qed.

Lemma _compute_table_2d_shape_assertion_witness :
  _compute_table_2d (sample_env 2 true) "seg.n5" "seg"
                    [frac 1 1; frac 1 1; frac 1 1] empty_world
  = (inl AssertionError, empty_world).
Proof.
  apply (_compute_table_2d_shape_assertion (sample_env 2 true) "seg.n5"
           "seg" [frac 1 1; frac 1 1; frac 1 1] tt empty_world).
  - reflexivity.
  - left. simpl. lia.
Defined.

(** X5: the content of the 2D table.  On an image with at least one
    region, for a resolution (ry, rx), the 2D extractor returns a table
    with one row per region, in the order of [regionprops] and labelled
    0, 1, ...: the label, the eccentricity centre scaled by (ry, rx), the
    two corners of the bounding box scaled by (ry, rx), and the area,
    all in (y, x) order.  It changes nothing in the world. *)
Theorem _compute_table_2d_content env seg_path seg_key ry rx seg centers
    props w :
  open_file_image env seg_path seg_key = inr seg →
  image_ndim env seg = 2%nat →
  eccentricityCenters env seg = inr centers →
  regionprops env seg = inr props →
  props ≠ [] →
  Forall (region_2d centers) props →
  ∃ df,
    _compute_table_2d env seg_path seg_key [ry; rx] w = (inr df, w)
    ∧ columns df = col_names_2d
    ∧ length (df_rows df) = length props
    ∧ ∀ i p cy cx y0 x0 y1 x1,
        props !! i = Some p →
        centers !! label p = Some [cy; cx] →
        bbox p = [y0; x0; y1; x1] →
        df_rows df !! i
        = Some (i, [num_of_nat (label p);
                    num_mul cy ry; num_mul cx rx;
                    num_mul (num_of_Z y0) ry; num_mul (num_of_Z x0) rx;
                    num_mul (num_of_Z y1) ry; num_mul (num_of_Z x1) rx;
                    num_of_Z (area p)]).
Proof.
  intros Hseg Hdim Hce Hprops Hne Hreg. eexists. split.
  { by apply (_compute_table_2d_returns _ _ _ _ seg centers props). }
  split; [done|]. cbn [df_rows]. split.
  { by rewrite length_imap, length_fmap. }
  intros i p cy cx y0 x0 y1 x1 Hp Hc Hb.
  rewrite list_lookup_imap, list_lookup_fmap, Hp. simpl.
  unfold row_2d. by rewrite Hc, Hb.
Qed.

Lemma _compute_table_2d_content_witness :
  ∃ df,
    _compute_table_2d (sample_env 2 true) "seg.n5" "seg"
                      [frac 1 2; frac 2 1] empty_world
    = (inr df, empty_world)
    ∧ columns df = col_names_2d
    ∧ length (df_rows df) = 1%nat.
Proof.
  destruct (_compute_table_2d_content (sample_env 2 true) "seg.n5" "seg"
              (frac 1 2) (frac 2 1) tt
              [[frac 0 1; frac 0 1]; [frac 3 2; frac 5 2]]
              [mk_region 1 [0; 0; 4; 4]%Z 16] empty_world)
    as (df & Hrun & Hcols & Hlen & _).
  - reflexivity.
  - reflexivity.
  - reflexivity.
  - reflexivity.
  - discriminate.
  - repeat constructor. by eexists.
  - by exists df.
Defined.

(** X6: on a 2D segmentation the arguments of the distributed path are
    dead.  Whatever [tmp_folder], [target], [max_jobs] and
    [correct_anchors] are, [compute_default_table] behaves the same; in
    particular [correct_anchors=True] is not rejected, and neither the
    config writer nor the workflow is called. *)
Theorem compute_default_table_2d_ignores_3d_arguments env seg_path seg_key
    table_path resolution tmp_folder target max_jobs correct_anchors
    tmp_folder' target' max_jobs' correct_anchors' w :
  open_file_ndim env seg_path seg_key = inr 2%nat →
  compute_default_table env seg_path seg_key table_path resolution
                        tmp_folder target max_jobs correct_anchors w
  = compute_default_table env seg_path seg_key table_path resolution
                          tmp_folder' target' max_jobs' correct_anchors' w
  ∧ Forall (λ ev, is_output_write ev = true)
      (new_events w
         (compute_default_table env seg_path seg_key table_path resolution
            tmp_folder target max_jobs correct_anchors w).2).
Proof.
  intros Hnd. split.
  - rewrite !compute_default_table_run, Hnd. by unfold extract_table.
  - apply Forall_forall. intros ev Hev.
    by eapply compute_default_table_2d_events.
Qed.

Lemma compute_default_table_2d_ignores_3d_arguments_witness :
  sample_run 2 true [frac 1 1; frac 1 1] 8 true
  = sample_run 2 true [frac 1 1; frac 1 1] 8 false.
Proof.
  destruct (compute_default_table_2d_ignores_3d_arguments (sample_env 2 true)
              "seg.n5" "seg" "out/tables/default.tsv" [frac 1 1; frac 1 1]
              "tmp" "local" 8 true "tmp" "local" 8 false empty_world)
    as [H _].
  - reflexivity.
  - exact H.
Defined.

(** ** The translator: when it fails and what a failure leaves behind *)

(** X7: the translator returns exactly when the batch has at least three
    columns and at least three factors are at hand; otherwise it raises
    IndexError.  No other case is told apart: a wider batch or a longer
    list of factors is accepted. *)
Theorem translate_coordinate_tuple_outcome res_in_micron coords w :
  (translate_coordinate_tuple res_in_micron coords w).1
  = if (3 <=? width coords)%nat && (3 <=? length res_in_micron)%nat
    then inr (reverse_cols coords)
    else inl IndexError.
Proof.
  pose proof (length_view_cols (reverse_cols coords)) as Hlen.
  cbn [width reverse_cols] in Hlen. rewrite <-Hlen.
  unfold translate_coordinate_tuple. cbn [seq for_].
  unfold mbind, M_bind, lift, getitem_col, list_getitem, imul, mret, M_ret.
  destruct (view_cols (reverse_cols coords)) as [|c0 [|c1 [|c2 cs]]];
    destruct res_in_micron as [|ra [|rb [|rc tl]]]; reflexivity.
Qed.

(** X8: a failed call of the translator is not undone.  With a resolution
    of two values (ry, rx) and a batch of three columns (z, y, x), the
    translator raises IndexError when it looks for the third factor; by
    then it has scaled x by rx and y by ry in the array. *)
Theorem translate_coordinate_tuple_not_atomic w coords ry rx :
  width coords = 3%nat →
  ∃ w',
    translate_coordinate_tuple (reverse [ry; rx]) coords w
    = (inl IndexError, w')
    ∧ batch w' coords
      = (λ t, match t with
              | [z; y; x] => [z; num_mul y ry; num_mul x rx]
              | _ => t
              end) <$> batch w coords.
Proof.
  intros Hw.
  destruct (view_cols_width3 coords Hw)
    as (c0 & c1 & c2 & Hc & H01 & H02 & H12).
  unfold translate_coordinate_tuple. cbn [seq for_ reverse rev_append].
  unfold mbind, M_bind, lift, getitem_col, list_getitem, imul, mret, M_ret.
  rewrite view_cols_reverse, Hc. cbn.
  eexists. split; [reflexivity|].
  unfold batch, view_to_array. cbn [store rows base].
  rewrite !list_lookup_alter_eq.
  destruct (store w !! base coords) as [a|]; [|done]. cbn.
  rewrite <-!list_fmap_compose. apply list_fmap_ext. intros i row _.
  rewrite Hc. unfold compose, select. cbn [fmap list_fmap].
  rewrite (get_alter_ne _ _ c1 c0), (get_alter_ne _ _ c2 c0) by done.
  rewrite get_alter_mul, (get_alter_ne _ _ c2 c1) by done.
  by rewrite (get_alter_ne _ _ c1 c2), get_alter_mul by done.
Qed.

Lemma translate_coordinate_tuple_not_atomic_witness :
  ∃ w',
    translate_coordinate_tuple (reverse [frac 2 1; frac 3 1]) sample_com
                               sample_world
    = (inl IndexError, w')
    ∧ batch w' sample_com
      = (λ t, match t with
              | [z; y; x] => [z; num_mul y (frac 2 1); num_mul x (frac 3 1)]
              | _ => t
              end) <$> batch sample_world sample_com.
Proof.
  apply (translate_coordinate_tuple_not_atomic sample_world sample_com).
  reflexivity.
Defined.

(** ** The 3D path from end to end *)

(** The whole run on a 3D segmentation whose config write and workflow
    succeed and whose attribute array has at least 11 columns. *)
Lemma compute_default_table_3d_run env seg_path seg_key table_path
    resolution ra rb rc tl tmp_folder target max_jobs w ndim a :
  let t := workflow_task seg_path seg_key tmp_folder target max_jobs in
  let folder := (os_path_split table_path).1 in
  let w1 := mk_world (store w ++ [map_rows (attributes_after ra rb rc) a])
                     (log w) in
  open_file_ndim env seg_path seg_key = inr ndim →
  ndim ≠ 2%nat →
  write_global_config env (task_config_dir t) = inr tt →
  luigi_build env t = inr true →
  open_file_array env (task_output_path t) (task_output_key t) = inr a →
  (11 ≤ ncols a)%nat →
  reverse resolution = ra :: rb :: rc :: tl →
  compute_default_table env seg_path seg_key table_path resolution
                        tmp_folder target max_jobs false w
  = match os_makedirs env folder true with
    | inl e =>
        (inl e, logged w1 [EvWriteGlobalConfig (task_config_dir t);
                           EvLuigiBuild t; EvMakedirs folder true])
    | inr _ =>
        (write_text env table_path
           (tsv_text (float_repr env) (final_table_3d ra rb rc a)),
         logged w1 [EvWriteGlobalConfig (task_config_dir t);
                    EvLuigiBuild t; EvMakedirs folder true;
                    EvToCsv (final_table_3d ra rb rc a) table_path tab_char
                            false "nan"])
    end.
Proof.
  intros t folder w1 Hnd H2 Hcfg Hluigi Ha Hn Hres.
  apply Nat.eqb_neq in H2.
  rewrite compute_default_table_run, Hnd. unfold extract_table.
  rewrite H2, _compute_table_3d_run. cbv zeta.
  subst t.
  cbn [task_config_dir task_output_path task_output_key workflow_task]
    in Hcfg, Ha.
  rewrite Hcfg, Hluigi.
  rewrite (_n5_to_pandas_run _ _ _ _ _ _ _ _ _ _ Ha Hn Hres).
  unfold remove_background_label_row.
  rewrite (drop_zero_rows "label_id" 0 (table_3d ra rb rc a)) by reflexivity.
  unfold _remove_empty_columns.
  rewrite (drop_zero_rows "n_pixels" 10) by reflexivity.
  cbn [columns df_rows table_3d].
  assert (filter (λ r : nat * list num, num_ne (get r.2 10) num_zero = true)
            (filter (λ r : nat * list num,
                       num_ne (get r.2 0) num_zero = true)
               (imap (λ i r, (i, r)) (row_3d ra rb rc <$> rows a)))
          = df_rows (final_table_3d ra rb rc a)) as ->.
  { unfold final_table_3d, table_3d. cbn [df_rows].
    rewrite list_filter_filter. apply list_filter_iff. intros r.
    rewrite !num_ne_zero. tauto. }
  fold folder. unfold logged. cbn [store log].
  destruct (os_makedirs env folder true); by rewrite <-!app_assoc.
Qed.

(** X9: a successful run on a 3D segmentation.  The config is written
    into the folder the workflow is told to read, the workflow is run
    once, the attributes are read from the dataset the workflow was told
    to write, the folder of [table_path] is made, and the table is
    written, in this order and nothing else.  For a resolution
    (rz, ry, rx) the table has, for every attribute row whose label and
    size are not zero, in the order of the array: the label, the centre
    of mass as (x*rx, y*ry, z*rz), the two corners of the bounding box in
    the same way, and the size. *)
Theorem compute_default_table_3d_success env seg_path seg_key table_path
    rz ry rx tmp_folder target max_jobs w ndim a :
  let t := workflow_task seg_path seg_key tmp_folder target max_jobs in
  let folder := (os_path_split table_path).1 in
  let table :=
    mk_df col_names_3d
      (filter (λ r, get r.2 0 ≠ num_zero ∧ get r.2 10 ≠ num_zero)
         (imap (λ i r, (i, r))
            ((λ row,
                [get row 0;
                 num_mul (get row 4) rx; num_mul (get row 3) ry;
                 num_mul (get row 2) rz;
                 num_mul (get row 7) rx; num_mul (get row 6) ry;
                 num_mul (get row 5) rz;
                 num_mul (get row 10) rx; num_mul (get row 9) ry;
                 num_mul (get row 8) rz;
                 get row 1]) <$> rows a))) in
  let run := compute_default_table env seg_path seg_key table_path
               [rz; ry; rx] tmp_folder target max_jobs false w in
  open_file_ndim env seg_path seg_key = inr ndim →
  ndim ≠ 2%nat →
  write_global_config env (task_config_dir t) = inr tt →
  luigi_build env t = inr true →
  open_file_array env (task_output_path t) (task_output_key t) = inr a →
  (11 ≤ ncols a)%nat →
  os_makedirs env folder true = inr tt →
  run.1 = write_text env table_path (tsv_text (float_repr env) table)
  ∧ new_events w run.2
    = [EvWriteGlobalConfig (task_config_dir t); EvLuigiBuild t;
       EvMakedirs folder true;
       EvToCsv table table_path tab_char false "nan"].
Proof.
  intros t folder table run Hnd H2 Hcfg Hluigi Ha Hn Hmk. subst run.
  rewrite (compute_default_table_3d_run _ _ _ _ [rz; ry; rx] rx ry rz []
             _ _ _ _ _ _ Hnd H2 Hcfg Hluigi Ha Hn eq_refl).
  fold folder. rewrite Hmk. cbn [fst snd].
  by rewrite new_events_logged_app with (pre := []) by (by rewrite app_nil_r).
Qed.

Lemma compute_default_table_3d_success_witness :
  (sample_run 3 true [frac 1 1; frac 2 1; frac 3 1] 8 false).1 = inr tt.
Proof.
  destruct (compute_default_table_3d_success (sample_env 3 true) "seg.n5"
              "seg" "out/tables/default.tsv" (frac 1 1) (frac 2 1)
              (frac 3 1) "tmp" "local" 8 empty_world 3 sample_attributes)
    as [H _].
  - reflexivity.
  - lia.
  - reflexivity.
  - reflexivity.
  - reflexivity.
  - simpl. lia.
  - reflexivity.
  - exact H.
Defined.


Lemma filter_none {A} (P : A → Prop) `{∀ x, Decision (P x)} (l : list A) :
  Forall (λ x, ¬ P x) l → filter P l = [].
Proof.
  induction 1 as [|x l Hx _ IH]; [done|].
  by rewrite filter_cons_False.
Qed.

(** X10: a volume without objects gives a table without rows.  If every
    attribute row is the background (label 0) or has size 0, the run on a
    3D segmentation still writes the file: its text is the header line
    alone. *)
Theorem compute_default_table_3d_background_only env seg_path seg_key
    table_path resolution ra rb rc tl tmp_folder target max_jobs w ndim a :
  let t := workflow_task seg_path seg_key tmp_folder target max_jobs in
  let folder := (os_path_split table_path).1 in
  let run := compute_default_table env seg_path seg_key table_path
               resolution tmp_folder target max_jobs false w in
  open_file_ndim env seg_path seg_key = inr ndim →
  ndim ≠ 2%nat →
  write_global_config env (task_config_dir t) = inr tt →
  luigi_build env t = inr true →
  open_file_array env (task_output_path t) (task_output_key t) = inr a →
  (11 ≤ ncols a)%nat →
  reverse resolution = ra :: rb :: rc :: tl →
  os_makedirs env folder true = inr tt →
  Forall (λ row, get row 0 = num_zero ∨ get row 1 = num_zero) (rows a) →
  run.1 = write_text env table_path
            (String.concat tab_char col_names_3d +:+ newline)
  ∧ last (log run.2)
    = Some (EvToCsv (mk_df col_names_3d []) table_path tab_char false "nan").
Proof.
  intros t folder run Hnd H2 Hcfg Hluigi Ha Hn Hres Hmk Hbg. subst run.
  rewrite (compute_default_table_3d_run _ _ _ _ _ _ _ _ _ _ _ _ _ _ _
             Hnd H2 Hcfg Hluigi Ha Hn Hres).
  fold folder. rewrite Hmk. cbn [fst snd].
  assert (final_table_3d ra rb rc a = mk_df col_names_3d []) as ->.
  { unfold final_table_3d. f_equal.
    apply filter_none, Forall_forall. intros [i r] Hr [H0 H10].
    unfold table_3d in Hr. cbn [df_rows] in Hr.
    apply elem_of_lookup_imap_1 in Hr as (j & r' & [= -> ->] & Hr).
    apply list_lookup_fmap_Some in Hr as (row & -> & Hrow).
    apply list_elem_of_lookup_2 in Hrow.
    eapply Forall_forall in Hbg; [|exact Hrow].
    destruct Hbg; [by apply H0 | by apply H10]. }
  split; [reflexivity|].
  unfold logged. cbn [log snd]. apply last_Some.
  eexists (_ ++ [_; _; _]). by rewrite <-app_assoc.
Qed.

Lemma compute_default_table_3d_background_only_witness :
  (compute_default_table (sample_env_3d background_attributes) "seg.n5"
     "seg" "out/tables/default.tsv" [frac 1 1; frac 1 1; frac 1 1] "tmp"
     "local" 8 false empty_world).1
  = inr tt.
Proof.
  destruct (compute_default_table_3d_background_only
              (sample_env_3d background_attributes) "seg.n5" "seg"
              "out/tables/default.tsv" [frac 1 1; frac 1 1; frac 1 1]
              (frac 1 1) (frac 1 1) (frac 1 1) [] "tmp" "local" 8
              empty_world 3 background_attributes) as [H _].
  - reflexivity.
  - lia.
  - reflexivity.
  - reflexivity.
  - reflexivity.
  - simpl. lia.
  - reflexivity.
  - reflexivity.
  - constructor; [left; reflexivity | constructor].
  - exact H.
Defined.

(** X11: too few attribute columns or resolution values.  If the
    attribute array has fewer than 11 columns, or the resolution fewer
    than 3 values, [_n5_to_pandas] raises IndexError, and no other
    error. *)
Theorem _n5_to_pandas_too_narrow env input_path input_key resolution a w :
  open_file_array env input_path input_key = inr a →
  (ncols a < 11)%nat ∨ (length resolution < 3)%nat →
  (_n5_to_pandas env input_path input_key resolution None w).1
  = inl IndexError.
Proof.
  intros Ha Hbad. unfold _n5_to_pandas.
  erewrite run_bind_inr by (rewrite Ha; apply run_lift).
  erewrite run_bind_inr by reflexivity.
  assert (length (reverse resolution) = length resolution) as Hlen
    by apply length_reverse.
  destruct a as [n rws]. cbn [ncols] in *.
  destruct (reverse resolution) as [|ra [|rb [|rc tl]]];
    cbn [length] in Hlen;
    do 11 (destruct n as [|n]; [reflexivity|]);
    first [reflexivity | lia].
Qed.

Lemma _n5_to_pandas_too_narrow_witness :
  (_n5_to_pandas (sample_env 3 true) "tmp/data.n5" "attributes"
                 [frac 1 1; frac 2 1] None empty_world).1
  = inl IndexError.
Proof.
  apply (_n5_to_pandas_too_narrow (sample_env 3 true) "tmp/data.n5"
           "attributes" [frac 1 1; frac 2 1] sample_attributes empty_world).
  - reflexivity.
  - right. simpl. lia.
Defined.

Lemma _n5_to_pandas_resolution_prefix env input_path input_key pre rz ry rx
    anchors :
  _n5_to_pandas env input_path input_key (pre ++ [rz; ry; rx]) anchors
  = _n5_to_pandas env input_path input_key [rz; ry; rx] anchors.
Proof.
  unfold _n5_to_pandas. rewrite reverse_app. reflexivity.
Qed.

(** X12: on the 3D path only the last three values of the resolution
    count.  A resolution with any number of values in front of
    (rz, ry, rx) gives the same run as (rz, ry, rx): same result, same
    calls, same table. *)
Theorem resolution_prefix_ignored env seg_path seg_key table_path pre
    rz ry rx tmp_folder target max_jobs correct_anchors w ndim :
  open_file_ndim env seg_path seg_key = inr ndim →
  ndim ≠ 2%nat →
  compute_default_table env seg_path seg_key table_path
                        (pre ++ [rz; ry; rx]) tmp_folder target max_jobs
                        correct_anchors w
  = compute_default_table env seg_path seg_key table_path [rz; ry; rx]
                          tmp_folder target max_jobs correct_anchors w.
Proof.
  intros Hnd H2. apply Nat.eqb_neq in H2.
  rewrite !compute_default_table_run, Hnd. unfold extract_table.
  rewrite H2, !_compute_table_3d_run. cbv zeta.
  by rewrite _n5_to_pandas_resolution_prefix.
Qed.

Lemma resolution_prefix_ignored_witness :
  sample_run 3 true ([frac 7 1; frac 5 1] ++ [frac 1 1; frac 2 1; frac 3 1])
             8 false
  = sample_run 3 true [frac 1 1; frac 2 1; frac 3 1] 8 false.
Proof.
  apply (resolution_prefix_ignored (sample_env 3 true) "seg.n5" "seg"
           "out/tables/default.tsv" [frac 7 1; frac 5 1] (frac 1 1)
           (frac 2 1) (frac 3 1) "tmp" "local" 8 false empty_world 3).
  - reflexivity.
  - lia.
Defined.

Lemma row_3d_take ra rb rc row :
  row_3d ra rb rc (take 11 row) = row_3d ra rb rc row.
Proof. do 11 (destruct row as [|? row]; [reflexivity|]). reflexivity. Qed.

(** X13: attribute columns beyond the eleventh are ignored.  Two
    attribute arrays that agree on the first 11 entries of every row give
    the same table. *)
Theorem attribute_columns_beyond_11_ignored env env' input_path input_key
    input_path' input_key' resolution a a' w w' :
  open_file_array env input_path input_key = inr a →
  open_file_array env' input_path' input_key' = inr a' →
  (11 ≤ ncols a)%nat →
  (11 ≤ ncols a')%nat →
  (3 ≤ length resolution)%nat →
  take 11 <$> rows a = take 11 <$> rows a' →
  (_n5_to_pandas env input_path input_key resolution None w).1
  = (_n5_to_pandas env' input_path' input_key' resolution None w').1.
Proof.
  intros Ha Ha' Hn Hn' Hres Hrows.
  assert (length (reverse resolution) = length resolution) as Hlen
    by apply length_reverse.
  destruct (reverse resolution) as [|ra [|rb [|rc tl]]] eqn:Hrev;
    cbn [length] in Hlen; try lia.
  rewrite (_n5_to_pandas_run _ _ _ _ _ _ _ _ _ _ Ha Hn Hrev).
  rewrite (_n5_to_pandas_run _ _ _ _ _ _ _ _ _ _ Ha' Hn' Hrev).
  assert (∀ b, row_3d ra rb rc <$> rows b
               = row_3d ra rb rc <$> (take 11 <$> rows b)) as Htake.
  { intros b. rewrite <-list_fmap_compose. apply list_fmap_ext.
    intros i row _. symmetry. apply row_3d_take. }
  assert (table_3d ra rb rc a = table_3d ra rb rc a') as ->; [|done].
  unfold table_3d. by rewrite (Htake a), (Htake a'), Hrows.
Qed.

Lemma attribute_columns_beyond_11_ignored_witness :
  (_n5_to_pandas (sample_env_3d (mk_ndarray 12
       [ [frac 1 1; frac 5 1; frac 1 2; frac 2 1; frac 3 1; frac 1 1;
          frac 2 1; frac 3 1; frac 4 1; frac 5 1; frac 6 1; frac 99 1] ]))
     "tmp/data.n5" "attributes" [frac 1 1; frac 2 1; frac 3 1] None
     empty_world).1
  = (_n5_to_pandas (sample_env_3d (mk_ndarray 11
       [ [frac 1 1; frac 5 1; frac 1 2; frac 2 1; frac 3 1; frac 1 1;
          frac 2 1; frac 3 1; frac 4 1; frac 5 1; frac 6 1] ]))
     "tmp/data.n5" "attributes" [frac 1 1; frac 2 1; frac 3 1] None
     empty_world).1.
Proof.
  eapply attribute_columns_beyond_11_ignored.
  - reflexivity.
  - reflexivity.
  - simpl. lia.
  - simpl. lia.
  - simpl. lia.
  - reflexivity.
Defined.

(** ** Supplied anchors: shape checks and the case of no correction *)

Lemma merged_row_com ra rb rc row :
  merged_row ra rb rc row (select [2; 3; 4]%nat row) = row_3d ra rb rc row.
Proof.
  unfold merged_row, merged_anchor.
  by destruct (forallb _ (select [2; 3; 4]%nat row)).
Qed.

(** X14: supplying the centres of mass as anchors changes nothing.  If
    the supplied anchors are the (untranslated) centres of mass of the
    attribute rows, [_n5_to_pandas] returns the table it returns without
    anchors. *)
Theorem supplied_centres_of_mass_same_table env input_path input_key
    resolution a anchors b w :
  open_file_array env input_path input_key = inr a →
  (11 ≤ ncols a)%nat →
  (3 ≤ length resolution)%nat →
  store w !! base anchors = Some b →
  width anchors = 3%nat →
  Forall (λ row, (start anchors + 3 ≤ length row)%nat) (rows b) →
  batch w anchors = select [2; 3; 4]%nat <$> rows a →
  (_n5_to_pandas env input_path input_key resolution (Some anchors) w).1
  = (_n5_to_pandas env input_path input_key resolution None w).1.
Proof.
  intros Ha Hn Hres Hb Hw Hrange Hbatch.
  assert (length (reverse resolution) = length resolution) as Hlen
    by apply length_reverse.
  destruct (reverse resolution) as [|ra [|rb [|rc tl]]] eqn:Hrev;
    cbn [length] in Hlen; try lia.
  assert (length (rows b) = length (rows a)) as Hrows.
  { apply (f_equal length) in Hbatch. unfold batch in Hbatch.
    rewrite (rows_view_to_array _ _ _ Hb) in Hbatch.
    by rewrite !length_fmap in Hbatch. }
  destruct (_n5_to_pandas_merge_run _ _ _ _ _ _ _ _ _ _ _ _
              Ha Hn Hrev Hb Hw Hrows Hrange) as [w' ->].
  rewrite (_n5_to_pandas_run _ _ _ _ _ _ _ _ _ _ Ha Hn Hrev).
  cbn [fst]. f_equal. unfold table_3d. do 2 f_equal. rewrite Hbatch.
  rewrite zip_with_fmap_r, zip_with_diag.
  apply list_fmap_ext. intros i row _. apply merged_row_com.
Qed.

Lemma supplied_centres_of_mass_same_table_witness :
  (_n5_to_pandas (sample_env 3 true) "tmp/data.n5" "attributes"
                 [frac 1 1; frac 2 1; frac 3 1] (Some sample_anchors)
                 sample_com_world).1
  = (_n5_to_pandas (sample_env 3 true) "tmp/data.n5" "attributes"
                   [frac 1 1; frac 2 1; frac 3 1] None sample_com_world).1.
Proof.
  eapply (supplied_centres_of_mass_same_table (sample_env 3 true)
            "tmp/data.n5" "attributes" [frac 1 1; frac 2 1; frac 3 1]
            sample_attributes sample_anchors).
  - reflexivity.
  - simpl. lia.
  - simpl. lia.
  - reflexivity.
  - reflexivity.
  - repeat constructor.
  - apply (bool_decide_unpack _). vm_compute. exact I.
Defined.

(** X15: the shape checks on supplied anchors come before any write.  If
    the anchor array does not have one row per attribute row, or is not
    three columns wide, [_n5_to_pandas] raises AssertionError; the arrays
    of the caller are as they were (the loaded attribute array is the only
    new buffer) and nothing is logged. *)
Theorem supplied_anchors_shape_assertion env input_path input_key resolution
    a anchors b w :
  open_file_array env input_path input_key = inr a →
  store w !! base anchors = Some b →
  length (rows b) ≠ length (rows a) ∨ width anchors ≠ 3%nat →
  _n5_to_pandas env input_path input_key resolution (Some anchors) w
  = (inl AssertionError, mk_world (store w ++ [a]) (log w)).
Proof.
  intros Ha Hb Hbad.
  assert (base anchors < length (store w))%nat as Hlt
    by (by eapply lookup_lt_Some).
  unfold _n5_to_pandas.
  erewrite run_bind_inr by (rewrite Ha; apply run_lift).
  erewrite run_bind_inr by reflexivity.
  apply run_bind_inl.
  erewrite run_bind_inr by apply run_read.
  erewrite run_bind_inr by apply run_read.
  cbn [store].
  rewrite (rows_view_to_array _ anchors b) by (by rewrite lookup_app_l).
  rewrite (rows_view_to_array _ _ a) by apply store_lookup_last.
  rewrite !length_fmap.
  destruct (decide (length (rows b) = length (rows a))) as [Heq|Hne].
  - rewrite Heq, Nat.eqb_refl.
    erewrite run_bind_inr by reflexivity.
    apply run_bind_inl.
    destruct Hbad as [?|Hw]; [done|].
    apply Nat.eqb_neq in Hw. by rewrite Hw.
  - apply run_bind_inl. apply Nat.eqb_neq in Hne. by rewrite Hne.
Qed.

Lemma supplied_anchors_shape_assertion_witness :
  _n5_to_pandas (sample_env_3d background_attributes) "tmp/data.n5"
                "attributes" [frac 1 1; frac 2 1; frac 3 1]
                (Some sample_anchors) sample_anchor_world
  = (inl AssertionError,
     mk_world (store sample_anchor_world ++ [background_attributes])
              (log sample_anchor_world)).
Proof.
  eapply supplied_anchors_shape_assertion.
  - reflexivity.
  - reflexivity.
  - left. simpl. lia.
Defined.

(** ** Removing the rows without pixels *)

(** X16: a table without an n_pixels column.  [_remove_empty_columns]
    raises AttributeError on a table that has no column of that name. *)
Theorem _remove_empty_columns_missing_column table :
  "n_pixels" ∉ columns table →
  _remove_empty_columns table = inl AttributeError.
Proof.
  intros Hn. unfold _remove_empty_columns, df_column.
  assert (list_find (λ c, c = "n_pixels") (columns table) = None) as ->;
    [|done].
  apply list_find_None, Forall_forall. by intros c Hc ->.
Qed.

Lemma _remove_empty_columns_missing_column_witness :
  _remove_empty_columns (mk_df ["label_id"; "anchor_x"] []) 
  = inl AttributeError.
Proof.
  apply _remove_empty_columns_missing_column.
  apply (bool_decide_unpack _). vm_compute. exact I.
Defined.

(** X17: removing the rows without pixels twice is removing them once.
    Whatever [_remove_empty_columns] returns, it returns unchanged when
    applied again. *)
Theorem _remove_empty_columns_idempotent table table' :
  _remove_empty_columns table = inr table' →
  _remove_empty_columns table' = inr table'.
Proof.
  intros H. unfold _remove_empty_columns in *.
  destruct (list_find (λ c, c = "n_pixels") (columns table))
    as [[i c]|] eqn:Hf.
  2: { unfold df_column in H. by rewrite Hf in H. }
  assert (c = "n_pixels") as ->
    by (by apply list_find_Some in Hf as (_ & -> & _)).
  rewrite (drop_zero_rows "n_pixels" i table Hf) in H. injection H as <-.
  rewrite (drop_zero_rows "n_pixels" i) by exact Hf.
  cbn [columns df_rows]. f_equal. f_equal.
  by apply list_filter_filter_r.
Qed.

Lemma _remove_empty_columns_idempotent_witness :
  _remove_empty_columns
    (returned empty_table (_remove_empty_columns sample_table, empty_world))
  = inr (returned empty_table
           (_remove_empty_columns sample_table, empty_world)).
Proof.
  apply (_remove_empty_columns_idempotent sample_table).
  vm_compute. reflexivity.
Defined.

(** ** Before the table is written *)

Lemma rsplit_sep_no_sep p :
  has_sep p = false → rsplit_sep p = (EmptyString, p).
Proof.
  induction p as [|c p IH]; [done|]. cbn [has_sep rsplit_sep].
  intros H. apply orb_false_iff in H as [Hc Hp].
  rewrite (IH Hp). cbn [fst snd is_empty negb]. by rewrite Hc.
Qed.

Lemma os_path_split_no_sep p :
  has_sep p = false → os_path_split p = (EmptyString, p).
Proof.
  intros H. unfold os_path_split. by rewrite (rsplit_sep_no_sep p H).
Qed.

(** X18: a table path without a folder part.  For a [table_path] with no
    separator, the folder handed to [os.makedirs] is the empty string; if
    [os.makedirs] refuses it, the run ends in that error after the whole
    extraction has been done, and no table is written. *)
Theorem bare_table_path_makedirs env seg_path seg_key table_path resolution
    tmp_folder target max_jobs correct_anchors w ndim table w1 e :
  has_sep table_path = false →
  open_file_ndim env seg_path seg_key = inr ndim →
  extract_table env seg_path seg_key resolution tmp_folder target max_jobs
                correct_anchors ndim w = (inr table, w1) →
  os_makedirs env EmptyString true = inl e →
  compute_default_table env seg_path seg_key table_path resolution
                        tmp_folder target max_jobs correct_anchors w
  = (inl e, logged w1 [EvMakedirs EmptyString true]).
Proof.
  intros Hsep Hnd Hex Hmk.
  destruct (extract_table_n_pixels _ _ _ _ _ _ _ _ _ _ _ _ Hex) as [i Hi].
  pose proof (drop_zero_rows "n_pixels" i table Hi) as Hrm.
  fold (_remove_empty_columns table) in Hrm.
  rewrite compute_default_table_run, Hnd, Hex, Hrm. cbv zeta.
  rewrite (os_path_split_no_sep _ Hsep). cbn [fst]. by rewrite Hmk.
Qed.

Lemma bare_table_path_makedirs_witness :
  (compute_default_table sample_env_posix "seg.n5" "seg" "default.tsv"
     [frac 1 1; frac 2 1; frac 3 1] "tmp" "local" 8 false empty_world).1
  = inl (OSError "No such file or directory").
Proof.
  erewrite (bare_table_path_makedirs sample_env_posix "seg.n5" "seg"
              "default.tsv" [frac 1 1; frac 2 1; frac 3 1] "tmp" "local" 8
              false empty_world 3).
  - reflexivity.
  - reflexivity.
  - reflexivity.
  - vm_compute. reflexivity.
  - reflexivity.
Defined.

(** X19: no output after a failed extraction.  Whatever error the
    extraction step ends in (of the workflow, of a shape check, of an
    index, of a collaborator), [compute_default_table] ends in the same
    error without having made the folder or written the table. *)
Theorem extraction_failure_writes_nothing env seg_path seg_key table_path
    resolution tmp_folder target max_jobs correct_anchors w ndim e w1 :
  open_file_ndim env seg_path seg_key = inr ndim →
  extract_table env seg_path seg_key resolution tmp_folder target max_jobs
                correct_anchors ndim w = (inl e, w1) →
  compute_default_table env seg_path seg_key table_path resolution
                        tmp_folder target max_jobs correct_anchors w
  = (inl e, w1)
  ∧ Forall (λ ev, is_output_write ev = false) (new_events w w1).
Proof.
  intros Hnd Hex. split.
  - by rewrite compute_default_table_run, Hnd, Hex.
  - pose proof (extract_table_events _ _ _ _ _ _ _ _ _ _ _ _ Hex) as Hlog.
    cbv zeta in Hlog. destruct Hlog as [Hl|[Hl|Hl]].
    + rewrite (new_events_app w w1 []) by (by rewrite app_nil_r).
      constructor.
    + rewrite (new_events_app _ _ _ Hl). by repeat constructor.
    + rewrite (new_events_app _ _ _ Hl). by repeat constructor.
Qed.

Lemma extraction_failure_writes_nothing_witness :
  sample_run 2 true [frac 1 1; frac 1 1; frac 1 1] 8 false
  = (inl AssertionError, empty_world).
Proof.
  eapply (extraction_failure_writes_nothing (sample_env 2 true) "seg.n5"
            "seg" "out/tables/default.tsv" [frac 1 1; frac 1 1; frac 1 1]
            "tmp" "local" 8 false empty_world 2).
  - reflexivity.
  - reflexivity.
Defined.
